(** * Guestbook server (server.js): a shallow embedding and its properties

    The program is an Express application with three routes over one SQLite
    table [posts] and one upload directory:

    - [GET /api/posts]         lists the rows, newest first;
    - [POST /api/posts]        multer stores the optional image, the handler
                               validates the two text fields and inserts a row;
    - [DELETE /api/posts/:id]  looks the row up, deletes it, then unlinks the
                               image file the row named.

    Every callback of the source receives an error argument chosen by the
    environment (the database, the file system).  The embedding makes these
    choices an explicit argument of each handler (record [env]) and threads
    the state of the world (table, files, trace of effects) through the calls
    in the order the callbacks run.  A handler is run to its end before the
    next request starts. *)

From Stdlib Require Import NArith ZArith List Ascii String Decimal DecimalPos.
From Stdlib Require Import Sorted Permutation Lia.
From Stdlib Require DecimalN.
From stdpp Require Import base decidable countable list gmap.

Local Open Scope N_scope.

(** ** JavaScript strings

    A JavaScript string is a sequence of UTF-16 code units; [length], [trim]
    and a regular expression without the [u] flag all work on code units. *)

Module JsString.

(** An ASCII literal of the source as a sequence of code units. *)
Definition lit (s : string) : list N :=
  map N_of_ascii (list_ascii_of_string s).

Definition CHAR_DOT : N := 46.
Definition CHAR_FORWARD_SLASH : N := 47.
Definition CHAR_UNDERSCORE : N := 95.
Definition CHAR_HYPHEN : N := 45.

(** [s.length] *)
Definition jslength (s : list N) : N := N.of_nat (List.length s).

(** ECMAScript WhiteSpace and LineTerminator code points, the characters
    [String.prototype.trim] removes at both ends. *)
Definition is_white_space (c : N) : bool :=
  (9 <=? c) && (c <=? 13)
  || (c =? 32) || (c =? 160) || (c =? 5760)
  || (8192 <=? c) && (c <=? 8202)
  || (c =? 8232) || (c =? 8233) || (c =? 8239) || (c =? 8287)
  || (c =? 12288) || (c =? 65279).

Fixpoint trim_start (s : list N) : list N :=
  match s with
  | c :: s' => if is_white_space c then trim_start s' else s
  | [] => []
  end.

Definition trim_end (s : list N) : list N := rev (trim_start (rev s)).

(** [s.trim()] *)
Definition trim (s : list N) : list N := trim_end (trim_start s).

(** Truthiness of a string value: only the empty string is falsy. *)
Definition truthy (s : list N) : bool :=
  match s with [] => false | _ :: _ => true end.

(** The code units of a decimal numeral. *)
Fixpoint uint_units (d : Decimal.uint) : list N :=
  match d with
  | Nil => []
  | D0 d' => 48 :: uint_units d'
  | D1 d' => 49 :: uint_units d'
  | D2 d' => 50 :: uint_units d'
  | D3 d' => 51 :: uint_units d'
  | D4 d' => 52 :: uint_units d'
  | D5 d' => 53 :: uint_units d'
  | D6 d' => 54 :: uint_units d'
  | D7 d' => 55 :: uint_units d'
  | D8 d' => 56 :: uint_units d'
  | D9 d' => 57 :: uint_units d'
  end.

(** The template literal [`${n}`] of a non-negative integer below 1e21:
    its decimal digits. *)
Definition digits (n : N) : list N := uint_units (N.to_uint n).

End JsString.

Import JsString.

(** ** The [path] module of Node.js (POSIX flavour)

    [path.join], [path.extname] and [path.basename] belong to the runtime,
    not to the program.  [join] and [normalize] follow the documented POSIX
    behaviour of Node's [lib/path.js]: the joined string is cut at every
    [/], empty and [.] segments are dropped, and [..] removes the segment
    before it (at the root of an absolute path there is nothing to remove and
    the [..] is dropped). *)

Module Path.

(** [s.split("/")] *)
Fixpoint split_slash (s : list N) : list (list N) :=
  match s with
  | [] => [[]]
  | c :: s' =>
      if c =? CHAR_FORWARD_SLASH then [] :: split_slash s'
      else match split_slash s' with
           | seg :: segs => (c :: seg) :: segs
           | [] => [[c]]
           end
  end.

(** [segs.join("/")] *)
Fixpoint join_slash (segs : list (list N)) : list N :=
  match segs with
  | [] => []
  | [seg] => seg
  | seg :: segs' => seg ++ CHAR_FORWARD_SLASH :: join_slash segs'
  end.

Definition units_eqb (a b : list N) : bool := bool_decide (a = b).

Definition DOT : list N := [CHAR_DOT].
Definition DOTDOT : list N := [CHAR_DOT; CHAR_DOT].

(** One step of [normalizeString]: [stack] holds the segments kept so far,
    the last one first. *)
Definition normalize_step (allowAboveRoot : bool)
    (stack : list (list N)) (seg : list N) : list (list N) :=
  if units_eqb seg [] || units_eqb seg DOT then stack
  else if units_eqb seg DOTDOT then
    match stack with
    | top :: below =>
        if units_eqb top DOTDOT
        then (if allowAboveRoot then DOTDOT :: stack else stack)
        else below
    | [] => if allowAboveRoot then [DOTDOT] else []
    end
  else seg :: stack.

Definition normalizeString (path : list N) (allowAboveRoot : bool) : list N :=
  join_slash
    (rev (fold_left (normalize_step allowAboveRoot) (split_slash path) [])).

Definition starts_with_slash (s : list N) : bool :=
  match s with c :: _ => c =? CHAR_FORWARD_SLASH | [] => false end.

Definition ends_with_slash (s : list N) : bool := starts_with_slash (rev s).

(** [path.normalize(path)] *)
Definition normalize (path : list N) : list N :=
  if negb (truthy path) then DOT
  else
    let isAbsolute := starts_with_slash path in
    let trailingSeparator := ends_with_slash path in
    let p := normalizeString path (negb isAbsolute) in
    if negb (truthy p) then
      if isAbsolute then [CHAR_FORWARD_SLASH]
      else if trailingSeparator then DOT ++ [CHAR_FORWARD_SLASH] else DOT
    else
      let p' := if trailingSeparator then p ++ [CHAR_FORWARD_SLASH] else p in
      if isAbsolute then CHAR_FORWARD_SLASH :: p' else p'.

(** [path.join(...args)]: the non-empty arguments joined with [/], then
    normalized. *)
Definition join (args : list (list N)) : list N :=
  match List.filter truthy args with
  | [] => DOT
  | parts => normalize (join_slash parts)
  end.

(** [s.slice(a, b)] for indices [0 <= a] and [0 <= b]. *)
Definition slice (s : list N) (a b : Z) : list N :=
  take (Z.to_nat (b - a)) (drop (Z.to_nat a) s).

(** The loop state of [extname]. *)
Record ext_state := ExtState {
  startDot : Z;
  startPart : Z;
  end_ : Z;
  matchedSlash : bool;
  preDotState : Z
}.

(** The loop [for (let i = path.length - 1; i >= 0; --i)] of [extname];
    [chars] holds the code units at indices [i], [i-1], ..., [0]. *)
Fixpoint extname_loop (chars : list N) (i : Z) (st : ext_state) : ext_state :=
  match chars with
  | [] => st
  | code :: chars' =>
      if code =? CHAR_FORWARD_SLASH then
        if negb (matchedSlash st)
        then ExtState (startDot st) (i + 1) (end_ st) (matchedSlash st)
                      (preDotState st)
        else extname_loop chars' (i - 1) st
      else
        let st1 :=
          if (end_ st =? -1)%Z
          then ExtState (startDot st) (startPart st) (i + 1) false
                        (preDotState st)
          else st in
        let st2 :=
          if code =? CHAR_DOT then
            if (startDot st1 =? -1)%Z
            then ExtState i (startPart st1) (end_ st1) (matchedSlash st1)
                          (preDotState st1)
            else if negb (preDotState st1 =? 1)%Z
            then ExtState (startDot st1) (startPart st1) (end_ st1)
                          (matchedSlash st1) 1
            else st1
          else if negb (startDot st1 =? -1)%Z
          then ExtState (startDot st1) (startPart st1) (end_ st1)
                        (matchedSlash st1) (-1)
          else st1 in
        extname_loop chars' (i - 1) st2
  end.

(** [path.extname(path)] *)
Definition extname (path : list N) : list N :=
  let st := extname_loop (rev path) (Z.of_nat (List.length path) - 1)
              (ExtState (-1) 0 (-1) true 0) in
  if (startDot st =? -1)%Z || (end_ st =? -1)%Z || (preDotState st =? 0)%Z
     || (preDotState st =? 1)%Z && (startDot st =? end_ st - 1)%Z
        && (startDot st =? startPart st + 1)%Z
  then []
  else slice path (startDot st) (end_ st).

(** The loop state of [basename] when a suffix is given. *)
Record base_state := BaseState {
  start : Z;
  bend : Z;
  bmatchedSlash : bool;
  extIdx : Z;
  firstNonSlashEnd : Z
}.

Definition charCodeAt (s : list N) (i : Z) : option N :=
  if (i <? 0)%Z then None else s !! Z.to_nat i.

Fixpoint basename_suffix_loop (suffix chars : list N) (i : Z)
    (st : base_state) : base_state :=
  match chars with
  | [] => st
  | code :: chars' =>
      if code =? CHAR_FORWARD_SLASH then
        if negb (bmatchedSlash st)
        then BaseState (i + 1) (bend st) (bmatchedSlash st) (extIdx st)
                       (firstNonSlashEnd st)
        else basename_suffix_loop suffix chars' (i - 1) st
      else
        let st1 :=
          if (firstNonSlashEnd st =? -1)%Z
          then BaseState (start st) (bend st) false (extIdx st) (i + 1)
          else st in
        let st2 :=
          if (0 <=? extIdx st1)%Z then
            if bool_decide (Some code = charCodeAt suffix (extIdx st1)) then
              if (extIdx st1 - 1 =? -1)%Z
              then BaseState (start st1) i (bmatchedSlash st1)
                             (extIdx st1 - 1) (firstNonSlashEnd st1)
              else BaseState (start st1) (bend st1) (bmatchedSlash st1)
                             (extIdx st1 - 1) (firstNonSlashEnd st1)
            else BaseState (start st1) (firstNonSlashEnd st1)
                           (bmatchedSlash st1) (-1) (firstNonSlashEnd st1)
          else st1 in
        basename_suffix_loop suffix chars' (i - 1) st2
  end.

Fixpoint basename_plain_loop (chars : list N) (i : Z)
    (st : base_state) : base_state :=
  match chars with
  | [] => st
  | code :: chars' =>
      if code =? CHAR_FORWARD_SLASH then
        if negb (bmatchedSlash st)
        then BaseState (i + 1) (bend st) (bmatchedSlash st) (extIdx st)
                       (firstNonSlashEnd st)
        else basename_plain_loop chars' (i - 1) st
      else if (bend st =? -1)%Z
      then basename_plain_loop chars' (i - 1)
             (BaseState (start st) (i + 1) false (extIdx st)
                        (firstNonSlashEnd st))
      else basename_plain_loop chars' (i - 1) st
  end.

(** [path.basename(path, suffix)] *)
Definition basename (path suffix : list N) : list N :=
  let len := Z.of_nat (List.length path) in
  let slen := Z.of_nat (List.length suffix) in
  if (0 <? slen)%Z && (slen <=? len)%Z then
    if units_eqb suffix path then []
    else
      let st := basename_suffix_loop suffix (rev path) (len - 1)
                  (BaseState 0 (-1) true (slen - 1) (-1)) in
      let e := if (start st =? bend st)%Z then firstNonSlashEnd st
               else if (bend st =? -1)%Z then len
               else bend st in
      slice path (start st) e
  else
    let st := basename_plain_loop (rev path) (len - 1)
                (BaseState 0 (-1) true (-1) (-1)) in
    if (bend st =? -1)%Z then [] else slice path (start st) (bend st).

End Path.

(** ** Library functions the program calls but does not define

    The results on the upload file name hold for any [extname] and
    [basename]; [rowid_of_text] is SQLite's conversion of a TEXT parameter
    compared with the INTEGER PRIMARY KEY column ([None] when the text
    denotes no integer, so that no row matches). *)

Class Runtime := {
  extname : list N -> list N;
  basename : list N -> list N -> list N;
  rowid_of_text : list N -> option N
}.

(** ** The posts table *)

Record post := Post {
  id : N;
  name : list N;
  message : list N;
  image_path : option (list N);
  created_at : N
}.

(** The table in rowid order, with the counter AUTOINCREMENT keeps in
    [sqlite_sequence]. *)
Record database := Database {
  rows : list post;
  sequence : N
}.

(** The table after [CREATE TABLE IF NOT EXISTS posts] on a new file. *)
Definition empty_database : database := Database [] 0.

Definition max_rowid (l : list post) : N :=
  fold_right (fun p m => N.max (id p) m) 0 l.

(** The rowid AUTOINCREMENT assigns: one more than the largest rowid the
    table has ever held. *)
Definition next_rowid (d : database) : N :=
  N.max (sequence d) (max_rowid (rows d)) + 1.

(** [INSERT INTO posts (name, message, image_path, created_at) VALUES (?, ?, ?, ?)];
    the second component is [this.lastID]. *)
Definition sql_insert (d : database) (n m : list N) (img : option (list N))
    (t : N) : database * N :=
  let i := next_rowid d in
  (Database (rows d ++ [Post i n m img t]) i, i).

Definition has_rowid (k : option N) (p : post) : bool :=
  match k with
  | Some i => id p =? i
  | None => false
  end.

(** [SELECT image_path FROM posts WHERE id = ?] through [db.get]: the first
    matching row, if any. *)
Definition sql_select_image_path (d : database) (k : option N)
    : option (option (list N)) :=
  match List.filter (has_rowid k) (rows d) with
  | p :: _ => Some (image_path p)
  | [] => None
  end.

(** [DELETE FROM posts WHERE id = ?] *)
Definition sql_delete (d : database) (k : option N) : database :=
  Database (List.filter (fun p => negb (has_rowid k p)) (rows d)) (sequence d).

(** [ORDER BY created_at DESC]: rows are taken in rowid order and each is
    placed after the rows that are at least as new, so rows with equal
    [created_at] keep their rowid order. *)
Fixpoint place_desc (p : post) (l : list post) : list post :=
  match l with
  | [] => [p]
  | q :: l' =>
      if created_at p <=? created_at q then q :: place_desc p l'
      else p :: l
  end.

Definition order_by_created_at_desc (l : list post) : list post :=
  fold_left (fun acc p => place_desc p acc) l [].

(** [SELECT id, name, message, image_path, created_at FROM posts
     ORDER BY created_at DESC] *)
Definition sql_select_all (d : database) : list post :=
  order_by_created_at_desc (rows d).

(** ** Responses, errors and the state of the world *)

Inductive body :=
  | JsonError (error : string)
  | JsonRows (l : list post)
  | JsonPost (p : post)
  | JsonSuccess.

Record response := Response {
  status : N;
  json : body
}.

(** The error object of an [fs] callback. *)
Record fs_error := FsError {
  code : string;
  emessage : string
}.

Definition ENOENT : fs_error :=
  FsError "ENOENT" "ENOENT: no such file or directory".

(** What a handler did, in the order it did it. *)
Inductive event :=
  | DbAll
  | DbGet (k : option N)
  | DbInsert (n m : list N) (img : option (list N)) (t : N)
  | DbDelete (k : option N)
  | FsWrite (path : list N)
  | FsUnlink (path : list N)
  | ConsoleError (label : string)
  | ConsoleWarn (label : string) (detail : string).

Record world := World {
  db : database;
  files : gset (list N);
  trace : list event
}.

(** What the environment decides during one request: the two readings of
    [Date.now()] and the error argument of every callback. *)
Record env := Env {
  upload_now : N;
  handler_now : N;
  db_all_err : option string;
  db_get_err : option string;
  db_insert_err : option string;
  db_delete_err : option string;
  unlink_err : option fs_error
}.

Definition log (ev : event) (w : world) : world :=
  World (db w) (files w) (trace w ++ [ev]).

Definition set_db (d : database) (w : world) : world :=
  World d (files w) (trace w).

Definition set_files (f : gset (list N)) (w : world) : world :=
  World (db w) f (trace w).

(** [fs.unlink(path, cb)]: the new set of files and the [err] given to [cb]. *)
Definition fs_unlink (fault : option fs_error) (path : list N)
    (f : gset (list N)) : gset (list N) * option fs_error :=
  match fault with
  | Some err => (f, Some err)
  | None =>
      if bool_decide (path ∈ f) then (f ∖ {[path]}, None)
      else (f, Some ENOENT)
  end.

(** ** The requests *)

(** The file part of a multipart form, field [image]. *)
Record file_part := FilePart {
  originalname : list N
}.

(** [req.body]: the text fields of the form.  A field that was not sent is
    [undefined]; every field that was sent is a string. *)
Record form := Form {
  form_name : option (list N);
  form_message : option (list N)
}.

Record post_request := PostRequest {
  req_body : option form;
  req_image : option file_part
}.

(** [req.file] once multer has stored the upload. *)
Record stored_file := StoredFile {
  file_filename : list N;
  file_path : list N
}.

(** ** The program *)

Section Server.

Context `{Runtime}.

(** [__dirname] *)
Variable dirname : list N.

Definition uploadDir : list N :=
  Path.join [dirname; lit "public"; lit "uploads"].

Definition in_range (lo hi c : N) : bool := (lo <=? c) && (c <=? hi).

(** The complement of the class [[^a-zA-Z0-9가-힣_-]]: U+AC00 is 가 and
    U+D7A3 is 힣. *)
Definition in_class (c : N) : bool :=
  in_range 97 122 c || in_range 65 90 c || in_range 48 57 c
  || in_range 44032 55203 c
  || (c =? CHAR_UNDERSCORE) || (c =? CHAR_HYPHEN).

(** [base.replace(/[^a-zA-Z0-9가-힣_-]/g, "")] *)
Fixpoint replace_outside_class (base : list N) : list N :=
  match base with
  | [] => []
  | c :: base' =>
      if in_class c then c :: replace_outside_class base'
      else replace_outside_class base'
  end.

(** The [filename] callback of [multer.diskStorage]; [now] is [Date.now()]. *)
Definition filename (now : N) (file : file_part) : list N :=
  let ext := extname (originalname file) in
  let base := basename (originalname file) ext in
  let safeBase := replace_outside_class base in
  digits now ++ [CHAR_UNDERSCORE]
    ++ (if truthy safeBase then safeBase else lit "img") ++ ext.

(** [upload.single("image")]: multer asks [destination] and [filename],
    writes the file at [path.join(destination, filename)] and sets
    [req.file]. *)
Definition upload_single (e : env) (image : option file_part) (w : world)
    : option stored_file * world :=
  match image with
  | None => (None, w)
  | Some file =>
      let fname := filename (upload_now e) file in
      let finalPath := Path.join [uploadDir; fname] in
      (Some (StoredFile fname finalPath),
       log (FsWrite finalPath) (set_files ({[finalPath]} ∪ files w) w))
  end.

(** [GET /api/posts] *)
Definition get_posts (e : env) (w : world) : response * world :=
  let w := log DbAll w in
  match db_all_err e with
  | Some err =>
      (Response 500 (JsonError "DB 조회 중 오류"),
       log (ConsoleError "❌ DB 조회 오류:") w)
  | None => (Response 200 (JsonRows (sql_select_all (db w))), w)
  end.

(** The handler of [POST /api/posts], after multer. *)
Definition create_post (e : env) (body : option form)
    (file : option stored_file) (w : world) : response * world :=
  let missing :=
    (Response 400 (JsonError "이름과 메시지를 모두 입력해 주세요."), w) in
  match body ≫= form_name, body ≫= form_message with
  | Some name, Some message =>
      if negb (truthy name) || negb (truthy message)
         || negb (truthy (trim name)) || negb (truthy (trim message))
      then missing
      else if 300 <? jslength message
      then (Response 400 (JsonError "메시지는 300자 이내로 작성해 주세요."), w)
      else
        let createdAt := handler_now e in
        let imagePath :=
          match file with
          | Some f => Some (lit "/uploads/" ++ file_filename f)
          | None => None
          end in
        let w :=
          log (DbInsert (trim name) (trim message) imagePath createdAt) w in
        match db_insert_err e with
        | Some err =>
            (Response 500 (JsonError "메시지 저장 중 오류"),
             log (ConsoleError "❌ DB 저장 오류:") w)
        | None =>
            let '(d, lastID) :=
              sql_insert (db w) (trim name) (trim message) imagePath
                createdAt in
            (Response 201
               (JsonPost (Post lastID (trim name) (trim message) imagePath
                            createdAt)),
             set_db d w)
        end
  | _, _ => missing
  end.

(** [POST /api/posts]: [upload.single("image")], then the handler. *)
Definition post_posts (e : env) (req : post_request) (w : world)
    : response * world :=
  let '(file, w) := upload_single e (req_image req) w in
  create_post e (req_body req) file w.

(** [imagePath.replace(/^\/+/, "")] *)
Fixpoint strip_leading_slashes (s : list N) : list N :=
  match s with
  | c :: s' =>
      if c =? CHAR_FORWARD_SLASH then strip_leading_slashes s' else s
  | [] => []
  end.

(** The file removal of the delete handler, lines 131 to 138. *)
Definition remove_image (e : env) (imagePath : option (list N)) (w : world)
    : world :=
  match imagePath with
  | Some imagePath =>
      if truthy imagePath then
        let fullPath :=
          Path.join [dirname; lit "public"; strip_leading_slashes imagePath] in
        let '(f, err3) := fs_unlink (unlink_err e) fullPath (files w) in
        let w := log (FsUnlink fullPath) (set_files f w) in
        match err3 with
        | Some err =>
            if negb (String.eqb (code err) "ENOENT")
            then log (ConsoleWarn "⚠ 이미지 파일 삭제 실패:" (emessage err)) w
            else w
        | None => w
        end
      else w
  | None => w
  end.

(** [DELETE /api/posts/:id]; [param] is [req.params.id]. *)
Definition delete_post (e : env) (param : list N) (w : world)
    : response * world :=
  let k := rowid_of_text param in
  let w := log (DbGet k) w in
  match db_get_err e with
  | Some err =>
      (Response 500 (JsonError "삭제 중 오류"),
       log (ConsoleError "❌ DB 조회 오류(삭제):") w)
  | None =>
      match sql_select_image_path (db w) k with
      | None => (Response 404 (JsonError "해당 글을 찾을 수 없습니다."), w)
      | Some imagePath =>
          let w := log (DbDelete k) w in
          match db_delete_err e with
          | Some err2 =>
              (Response 500 (JsonError "글 삭제 중 오류"),
               log (ConsoleError "❌ DB 삭제 오류:") w)
          | None =>
              let w := set_db (sql_delete (db w) k) w in
              (Response 200 JsonSuccess, remove_image e imagePath w)
          end
      end
  end.

End Server.

(** ** The routes

    Express gives a request to the handler registered for its method and
    path; requests are served one after the other. *)

Inductive request :=
  | GetPosts
  | PostPosts (req : post_request)
  | DeletePost (param : list N).

Section Routes.

Context `{Runtime}.

Variable dirname : list N.

Definition handle (e : env) (r : request) (w : world) : response * world :=
  match r with
  | GetPosts => get_posts e w
  | PostPosts req => post_posts dirname e req w
  | DeletePost param => delete_post dirname e param w
  end.

(** A sequence of requests, each with what the environment decides
    during it. *)
Fixpoint serve (rs : list (env * request)) (w : world)
    : list response * world :=
  match rs with
  | [] => ([], w)
  | (e, r) :: rs' =>
      let '(a, w1) := handle e r w in
      let '(answers, w2) := serve rs' w1 in
      (a :: answers, w2)
  end.

End Routes.

(** ** An instance of the library functions

    Node's POSIX [path] functions, and the texts SQLite reads as a rowid
    restricted to plain decimal numerals. *)

Fixpoint decimal_value (acc : N) (s : list N) : option N :=
  match s with
  | [] => Some acc
  | c :: s' =>
      if (48 <=? c) && (c <=? 57) then decimal_value (10 * acc + (c - 48)) s'
      else None
  end.

Definition decimal_rowid (s : list N) : option N :=
  if truthy s then decimal_value 0 s else None.

#[export] Instance posix_runtime : Runtime := {
  extname := Path.extname;
  basename := Path.basename;
  rowid_of_text := decimal_rowid
}.

(** ** Vocabulary of the statements *)

(** A decimal digit. *)
Definition is_digit (c : N) : Prop := 48 <= c <= 57.

(** The allowlist in the words of the specification: ASCII letters and
    digits, underscore, hyphen, and the Hangul syllables U+AC00 to U+D7A3. *)
Definition allowlisted (c : N) : Prop :=
  (65 <= c <= 90) \/ (97 <= c <= 122) \/ (48 <= c <= 57)
  \/ c = 95 \/ c = 45 \/ (44032 <= c <= 55203).

#[export] Instance allowlisted_dec (c : N) : Decision (allowlisted c).
Proof. unfold allowlisted. apply _. Defined.

(** A field is blank when it is absent, empty, or made of white space only. *)
Definition blank (f : option (list N)) : bool :=
  match f with
  | None => true
  | Some s => forallb is_white_space s
  end.

Definition field_name (req : post_request) : option (list N) :=
  req_body req ≫= form_name.

Definition field_message (req : post_request) : option (list N) :=
  req_body req ≫= form_message.

Definition MISSING_FIELDS : response :=
  Response 400 (JsonError "이름과 메시지를 모두 입력해 주세요.").

Definition MESSAGE_TOO_LONG : response :=
  Response 400 (JsonError "메시지는 300자 이내로 작성해 주세요.").

(** The [image_path] of the row, given the file multer stored. *)
Definition image_path_of (file : option stored_file) : option (list N) :=
  match file with
  | Some f => Some (lit "/uploads/" ++ file_filename f)
  | None => None
  end.

(** Newest first: every row is at least as new as the rows after it. *)
Definition newest_first (l : list post) : Prop :=
  StronglySorted (fun a b => created_at b <= created_at a) l.

Definition NOT_FOUND : response :=
  Response 404 (JsonError "해당 글을 찾을 수 없습니다.").

Definition DELETE_FAILED : response :=
  Response 500 (JsonError "글 삭제 중 오류").

Definition WARN_UNLINK : string := "⚠ 이미지 파일 삭제 실패:".

Definition is_warning (ev : event) : bool :=
  match ev with ConsoleWarn _ _ => true | _ => false end.

Definition is_unlink (ev : event) : bool :=
  match ev with FsUnlink _ => true | _ => false end.

(** An ordinary path segment: not empty, not [.], not [..], without [/]. *)
Definition plain (seg : list N) : Prop :=
  seg <> [] /\ seg <> Path.DOT /\ seg <> Path.DOTDOT
  /\ CHAR_FORWARD_SLASH ∉ seg.

#[export] Instance plain_dec (seg : list N) : Decision (plain seg).
Proof. unfold plain. apply _. Defined.

(** The absolute path with the given segments. *)
Definition abs_path (segs : list (list N)) : list N :=
  CHAR_FORWARD_SLASH :: Path.join_slash segs.

Fixpoint starts_with (prefix s : list N) : bool :=
  match prefix, s with
  | [], _ => true
  | a :: prefix', b :: s' => (a =? b) && starts_with prefix' s'
  | _ :: _, [] => false
  end.

(** [p] names something below the directory [dir]. *)
Definition inside_dir (dir p : list N) : bool :=
  starts_with (dir ++ [CHAR_FORWARD_SLASH]) p
  && (List.length dir + 1 <? List.length p)%nat.

(** What the loop of [extname] maintains before it reads index [i]. *)
Definition ext_inv (path : list N) (i : Z) (st : Path.ext_state) : Prop :=
  (Path.matchedSlash st = true /\ Path.end_ st = (-1)%Z
   /\ Path.startDot st = (-1)%Z)
  \/ (Path.matchedSlash st = false /\ (i + 1 <= Path.end_ st)%Z
      /\ (forall j, (i + 1 <= j < Path.end_ st)%Z ->
            path !! Z.to_nat j <> Some CHAR_FORWARD_SLASH)
      /\ (Path.startDot st = (-1)%Z
          \/ (i + 1 <= Path.startDot st < Path.end_ st)%Z)).

(** What holds of the state the loop ends in. *)
Definition ext_post (path : list N) (st : Path.ext_state) : Prop :=
  Path.startDot st = (-1)%Z \/ Path.end_ st = (-1)%Z
  \/ ((0 <= Path.startDot st <= Path.end_ st)%Z
      /\ forall j, (Path.startDot st <= j < Path.end_ st)%Z ->
           path !! Z.to_nat j <> Some CHAR_FORWARD_SLASH).

(** A string without white space at either end, and not empty: what
    [trim] leaves of a string that is not blank. *)
Definition outer_clean (s : list N) : Prop :=
  s <> []
  /\ (forall c, head s = Some c -> is_white_space c = false)
  /\ (forall c, last s = Some c -> is_white_space c = false).

(** The fields of a row as the create handler stores them. *)
Definition stored_fields_ok (p : post) : Prop :=
  outer_clean (name p) /\ outer_clean (message p)
  /\ jslength (message p) <= 300.

Definition STORE_FAILED : response :=
  Response 500 (JsonError "메시지 저장 중 오류").


(** The path multer writes an upload at. *)
Definition written_path (dirname : list N) `{Runtime} (e : env)
    (f : file_part) : list N :=
  Path.join [uploadDir dirname; filename (upload_now e) f].

Definition LOOKUP_FAILED : response :=
  Response 500 (JsonError "삭제 중 오류").

Definition LIST_FAILED : response :=
  Response 500 (JsonError "DB 조회 중 오류").

(** The row stays when the row with rowid [k] is deleted. *)
Definition other_row (k : option N) (p : post) : bool := negb (has_rowid k p).


(** Rowids grow along the table, so no two rows share one. *)
Definition rowids_increasing (l : list post) : Prop :=
  StronglySorted (fun a b => id a < id b) l.



(** ** A sample deployment *)

Definition sample_segs : list (list N) := [lit "srv"; lit "app"].

(** [/srv/app] *)
Definition sample_dir : list N := abs_path sample_segs.

Definition quiet : env :=
  Env 1700000000123 1700000000456 None None None None None.

Definition at_time (t : N) : env := Env t t None None None None None.

Definition unlink_denied : env :=
  Env 0 0 None None None None
    (Some (FsError "EACCES" "EACCES: permission denied")).

Definition delete_busy : env :=
  Env 0 0 None None None (Some "SQLITE_BUSY: database is locked"%string) None.

Definition new_world : world := World empty_database ∅ [].

Definition text_request (n m : list N) : post_request :=
  PostRequest (Some (Form (Some n) (Some m))) None.

Definition evil_png : file_part := FilePart (lit "../../ev il!.png").

Definition image_request (n m : list N) : post_request :=
  PostRequest (Some (Form (Some n) (Some m))) (Some evil_png).

(** The world after one post with an image. *)
Definition one_post_world : world :=
  snd (post_posts sample_dir quiet (image_request (lit " bob ") (lit "hi  "))
         new_world).

Definition bob_post : post :=
  Post 1 (lit "bob") (lit "hi")
    (Some (lit "/uploads/1700000000123_evil.png")) 1700000000456.

(** A message of 300 letters followed by one space. *)
Definition padded_message : list N := repeat 97 300 ++ [32].

(** A table whose only row names the database file, two directories above
    the upload directory. *)
Definition traversal_world : world :=
  World
    (Database
       [Post 1 (lit "bob") (lit "hi")
          (Some (lit "/uploads/../../guestbook.db")) 1700000000456] 1)
    {[lit "/srv/app/guestbook.db"]} [].

Definition insert_busy : env :=
  Env 1700000000123 1700000000456 None None
    (Some "SQLITE_BUSY: database is locked"%string) None None.

Definition lookup_busy : env :=
  Env 0 0 None (Some "SQLITE_BUSY: database is locked"%string) None None None.

(** The world after one post without an image. *)
Definition text_post_world : world :=
  snd (post_posts sample_dir quiet (text_request (lit "A") (lit "a"))
         new_world).

Definition text_post : post :=
  Post 1 (lit "A") (lit "a") None 1700000000456.

(** The path of the image of [bob_post]. *)
Definition bob_image : list N :=
  lit "/srv/app/public/uploads/1700000000123_evil.png".

(** A post with an image, its deletion, a listing, a post without image. *)
Definition sample_run : list (env * request) :=
  [(quiet, PostPosts (image_request (lit " bob ") (lit "hi  ")));
   (quiet, DeletePost (lit "1"));
   (quiet, GetPosts);
   (at_time 30, PostPosts (text_request (lit "C") (lit "c")))].

(** * Properties *)

Arguments lit : simpl never.
Arguments filename : simpl never.
Arguments Path.join : simpl never.

(** ** Strings *)

Lemma truthy_nonempty (s : list N) : truthy s = true <-> s <> [].
Proof. destruct s; simpl; split; congruence. Qed.

Lemma uint_units_digits (d : Decimal.uint) : Forall is_digit (uint_units d).
Proof.
  induction d; simpl; constructor; trivial; unfold is_digit; lia.
Qed.

Lemma uint_units_nil (d : Decimal.uint) : uint_units d = [] -> d = Nil.
Proof. destruct d; simpl; congruence. Qed.

Lemma digits_are_digits (n : N) : Forall is_digit (digits n).
Proof. apply uint_units_digits. Qed.

Lemma digits_nonempty (n : N) : digits n <> [].
Proof.
  unfold digits. intros E. apply uint_units_nil in E.
  destruct n as [|p]; simpl in E; [discriminate|].
  exact (Unsigned.to_uint_nonnil p E).
Qed.

(** ** The stored file name *)

Lemma in_class_allowlisted (c : N) : in_class c = true <-> allowlisted c.
Proof.
  unfold in_class, in_range, allowlisted, CHAR_UNDERSCORE, CHAR_HYPHEN.
  rewrite !orb_true_iff, !andb_true_iff, !N.leb_le, !N.eqb_eq. lia.
Qed.

Lemma replace_outside_class_filter (base : list N) :
  replace_outside_class base = filter allowlisted base.
Proof.
  induction base as [|c base IH]; simpl; [reflexivity|].
  rewrite filter_cons. destruct (in_class c) eqn:E.
  - rewrite decide_True by (apply in_class_allowlisted; exact E).
    now rewrite IH.
  - rewrite decide_False; [exact IH|].
    intros A. apply in_class_allowlisted in A. congruence.
Qed.

Lemma img_allowlisted : Forall allowlisted (lit "img").
Proof. repeat constructor; unfold allowlisted; simpl; lia. Qed.

Lemma safe_base_allowlisted (base : list N) :
  let safeBase := replace_outside_class base in
  Forall allowlisted (if truthy safeBase then safeBase else lit "img").
Proof.
  intros safeBase. destruct (truthy safeBase); [|apply img_allowlisted].
  subst safeBase. rewrite replace_outside_class_filter.
  apply Forall_forall. intros c Hc. apply list_elem_of_filter in Hc. tauto.
Qed.

(** C3. The stored file name is the decimal timestamp, an underscore, the
    safe base name and the extension of the original name unchanged; the safe
    base name is the original base name without the characters outside the
    allowlist, or ["img"] when nothing is left, so it is never empty and
    holds allowlisted characters only. *)
Theorem filename_shape `{Runtime} (now : N) (file : file_part) :
  let ext := extname (originalname file) in
  let base := basename (originalname file) ext in
  let stripped := filter allowlisted base in
  let safeBase := if decide (stripped = []) then lit "img" else stripped in
  filename now file = digits now ++ [CHAR_UNDERSCORE] ++ safeBase ++ ext
  /\ digits now <> [] /\ Forall is_digit (digits now)
  /\ safeBase <> [] /\ Forall allowlisted safeBase.
Proof.
  intros ext base stripped safeBase.
  assert (Hs : replace_outside_class base = stripped)
    by apply replace_outside_class_filter.
  repeat split.
  - unfold filename. fold ext. fold base. rewrite Hs. subst safeBase.
    destruct (decide (stripped = [])) as [E|E].
    + rewrite E. reflexivity.
    + apply truthy_nonempty in E. rewrite E. reflexivity.
  - apply digits_nonempty.
  - apply digits_are_digits.
  - subst safeBase. destruct (decide (stripped = [])); [discriminate|assumption].
  - subst safeBase. destruct (decide (stripped = [])).
    + apply img_allowlisted.
    + subst stripped. apply Forall_forall. intros c Hc.
      apply list_elem_of_filter in Hc. tauto.
Qed.

Example filename_evil :
  filename 1700000000123 (FilePart (lit "../../ev il!.png"))
  = lit "1700000000123_evil.png".
Proof. reflexivity. Qed.

Example filename_placeholder :
  filename 1700000000123 (FilePart (lit "***.jpg")) = lit "1700000000123_img.jpg".
Proof. reflexivity. Qed.

Example filename_hangul :
  filename 5 (FilePart ([44032; 32; 55203] ++ lit ".gif"))
  = lit "5_" ++ [44032; 55203] ++ lit ".gif".
Proof. reflexivity. Qed.

(** ** Trimming and blank fields *)

Lemma trim_start_nil_iff (s : list N) :
  trim_start s = [] <-> forallb is_white_space s = true.
Proof.
  induction s as [|c s IH]; simpl; [tauto|].
  destruct (is_white_space c); simpl; [exact IH|].
  split; discriminate.
Qed.

Lemma trim_start_head (s : list N) (c : N) (s' : list N) :
  trim_start s = c :: s' -> is_white_space c = false.
Proof.
  induction s as [|a s IH]; simpl; [discriminate|].
  destruct (is_white_space a) eqn:E; [exact IH|].
  intros [= <- _]. exact E.
Qed.

Lemma forallb_rev (f : N -> bool) (s : list N) :
  forallb f (rev s) = forallb f s.
Proof.
  induction s as [|c s IH]; simpl; [reflexivity|].
  rewrite forallb_app, IH. simpl. rewrite andb_true_r. apply andb_comm.
Qed.

Lemma trim_nil_iff (s : list N) :
  trim s = [] <-> forallb is_white_space s = true.
Proof.
  unfold trim, trim_end. split.
  - intros E. apply (f_equal (@rev N)) in E. rewrite rev_involutive in E.
    simpl in E. apply trim_start_nil_iff in E. rewrite forallb_rev in E.
    destruct (trim_start s) as [|c s'] eqn:Es.
    + now apply trim_start_nil_iff.
    + apply trim_start_head in Es. simpl in E. rewrite Es in E. discriminate.
  - intros E. apply trim_start_nil_iff in E. rewrite E. reflexivity.
Qed.

Lemma truthy_trim (s : list N) :
  truthy (trim s) = negb (forallb is_white_space s).
Proof.
  destruct (forallb is_white_space s) eqn:E; simpl.
  - apply trim_nil_iff in E. now rewrite E.
  - apply truthy_nonempty. intros T. apply trim_nil_iff in T. congruence.
Qed.

Lemma missing_check (n m : list N) :
  negb (truthy n) || negb (truthy m)
  || negb (truthy (trim n)) || negb (truthy (trim m))
  = blank (Some n) || blank (Some m).
Proof.
  rewrite !truthy_trim, !negb_involutive. simpl.
  destruct n, m; simpl; try reflexivity;
    repeat (destruct (forallb _ _) || destruct (is_white_space _)); reflexivity.
Qed.

Section CreateProperties.

Context `{Runtime}.
Variable dirname : list N.

Lemma create_post_missing e body file w :
  blank (body ≫= form_name) || blank (body ≫= form_message) = true ->
  create_post e body file w = (MISSING_FIELDS, w).
Proof.
  intros B. unfold create_post.
  destruct (body ≫= form_name) as [n|]; [|reflexivity].
  destruct (body ≫= form_message) as [m|]; [|reflexivity].
  rewrite missing_check, B. reflexivity.
Qed.

Lemma create_post_too_long e body file w n m :
  body ≫= form_name = Some n -> body ≫= form_message = Some m ->
  blank (Some n) || blank (Some m) = false ->
  300 < jslength m ->
  create_post e body file w = (MESSAGE_TOO_LONG, w).
Proof.
  intros En Em B L. unfold create_post. rewrite En, Em, missing_check, B.
  apply N.ltb_lt in L. rewrite L. reflexivity.
Qed.

Lemma create_post_accepted e body file w n m :
  body ≫= form_name = Some n -> body ≫= form_message = Some m ->
  blank (Some n) || blank (Some m) = false ->
  jslength m <= 300 ->
  create_post e body file w =
    let w1 := log (DbInsert (trim n) (trim m) (image_path_of file)
                     (handler_now e)) w in
    match db_insert_err e with
    | Some _ =>
        (Response 500 (JsonError "메시지 저장 중 오류"),
         log (ConsoleError "❌ DB 저장 오류:") w1)
    | None =>
        let p := Post (next_rowid (db w)) (trim n) (trim m)
                   (image_path_of file) (handler_now e) in
        (Response 201 (JsonPost p),
         set_db (Database (rows (db w) ++ [p]) (next_rowid (db w))) w1)
    end.
Proof.
  intros En Em B L. unfold create_post. rewrite En, Em, missing_check, B.
  apply N.ltb_ge in L. rewrite L. simpl.
  destruct (db_insert_err e); reflexivity.
Qed.

Lemma upload_single_db e image w :
  db (snd (upload_single dirname e image w)) = db w.
Proof. destruct image; reflexivity. Qed.

Lemma post_posts_unfold e req w :
  post_posts dirname e req w =
  create_post e (req_body req) (fst (upload_single dirname e (req_image req) w))
    (snd (upload_single dirname e (req_image req) w)).
Proof.
  unfold post_posts. destruct (upload_single dirname e (req_image req) w).
  reflexivity.
Qed.

Lemma max_rowid_bound (l : list post) (q : post) :
  q ∈ l -> id q <= max_rowid l.
Proof.
  induction l as [|a l IH]; simpl.
  - intros Hq. inversion Hq.
  - intros Hq. apply elem_of_cons in Hq as [->|Hq]; [lia|].
    specialize (IH Hq). lia.
Qed.

Lemma next_rowid_fresh (d : database) (q : post) :
  q ∈ rows d -> id q < next_rowid d.
Proof.
  intros Hq. apply max_rowid_bound in Hq. unfold next_rowid. lia.
Qed.

Lemma place_desc_split (p : post) (l : list post) :
  exists l1 l2, l = l1 ++ l2 /\ place_desc p l = l1 ++ p :: l2.
Proof.
  induction l as [|q l (l1 & l2 & E1 & E2)]; simpl.
  - exists [], []. split; reflexivity.
  - destruct (created_at p <=? created_at q).
    + exists (q :: l1), l2. rewrite E2. split; [now rewrite E1|reflexivity].
    + exists [], (q :: l). split; reflexivity.
Qed.

Lemma order_by_snoc (l : list post) (p : post) :
  order_by_created_at_desc (l ++ [p])
  = place_desc p (order_by_created_at_desc l).
Proof. unfold order_by_created_at_desc. now rewrite fold_left_app. Qed.


(** C1, as the code has it. Once name and message pass the missing-fields
    check, the request is answered 400 exactly when the message as received,
    before trimming, is longer than 300 code units; the answer is then the
    too-long error and the table is as it was. *)
Theorem create_rejects_untrimmed_length e req w n m :
  field_name req = Some n -> field_message req = Some m ->
  blank (Some n) = false -> blank (Some m) = false ->
  (status (fst (post_posts dirname e req w)) = 400 <-> 300 < jslength m)
  /\ (300 < jslength m ->
      fst (post_posts dirname e req w) = MESSAGE_TOO_LONG
      /\ db (snd (post_posts dirname e req w)) = db w).
Proof.
  intros En Em Bn Bm.
  assert (B : blank (Some n) || blank (Some m) = false) by now rewrite Bn, Bm.
  rewrite post_posts_unfold.
  destruct (N.lt_ge_cases 300 (jslength m)) as [L|L].
  - rewrite (create_post_too_long _ _ _ _ n m En Em B L). simpl.
    repeat split; trivial. apply upload_single_db.
  - rewrite (create_post_accepted _ _ _ _ n m En Em B L). simpl.
    split; [|lia]. destruct (db_insert_err e); simpl; split; intros; lia.
Qed.

(** C9. A request whose fields pass validation and whose insert does not
    fail is answered 201 with the post: the rowid the table assigned, the
    trimmed name and message, the image path ([null] without a file) and the
    creation time. The row added to the table is this post, its rowid is
    above every rowid of the table, and the listing afterwards is the listing
    before with this one entry added. *)
Theorem create_returns_stored_post e e' req w n m :
  field_name req = Some n -> field_message req = Some m ->
  blank (Some n) = false -> blank (Some m) = false ->
  jslength m <= 300 -> db_insert_err e = None -> db_all_err e' = None ->
  let r := fst (post_posts dirname e req w) in
  let w' := snd (post_posts dirname e req w) in
  let p := Post (next_rowid (db w)) (trim n) (trim m)
             (match req_image req with
              | Some f => Some (lit "/uploads/" ++ filename (upload_now e) f)
              | None => None
              end)
             (handler_now e) in
  r = Response 201 (JsonPost p)
  /\ rows (db w') = rows (db w) ++ [p]
  /\ (forall q, q ∈ rows (db w) -> id q < id p)
  /\ exists l1 l2,
       fst (get_posts e' w) = Response 200 (JsonRows (l1 ++ l2))
       /\ fst (get_posts e' w') = Response 200 (JsonRows (l1 ++ p :: l2)).
Proof.
  intros En Em Bn Bm L Ei Ea r w' p.
  assert (B : blank (Some n) || blank (Some m) = false) by now rewrite Bn, Bm.
  assert (Ep : image_path_of
                 (fst (upload_single dirname e (req_image req) w))
               = image_path p) by (destruct (req_image req); reflexivity).
  subst r w'. rewrite post_posts_unfold.
  rewrite (create_post_accepted _ _ _ _ n m En Em B L), Ei.
  cbv zeta. cbn [fst snd db set_db log rows].
  rewrite upload_single_db, Ep.
  change (Post (next_rowid (db w)) (trim n) (trim m) (image_path p)
            (handler_now e)) with p.
  split; [reflexivity|]. split; [reflexivity|].
  split; [intros q Hq; now apply next_rowid_fresh|].
  unfold get_posts. rewrite Ea. unfold sql_select_all.
  cbn [fst snd db set_db log rows]. rewrite order_by_snoc.
  destruct (place_desc_split p (order_by_created_at_desc (rows (db w))))
    as (l1 & l2 & E1 & E2).
  exists l1, l2. rewrite E2, <- E1. split; reflexivity.
Qed.

(** C10. When a request carries an image and is answered 400, multer has
    already written the file under the upload directory and nothing removes
    it: the file is among the files afterwards, the write is the only thing
    the request did, and the table is as it was, so a file name no row
    referred to before is referred to by no row afterwards. *)
Theorem rejected_upload_is_orphaned e req w f :
  req_image req = Some f ->
  status (fst (post_posts dirname e req w)) = 400 ->
  let w' := snd (post_posts dirname e req w) in
  let fname := filename (upload_now e) f in
  let written := Path.join [uploadDir dirname; fname] in
  written ∈ files w'
  /\ files w' = {[written]} ∪ files w
  /\ trace w' = trace w ++ [FsWrite written]
  /\ db w' = db w
  /\ ((forall q, q ∈ rows (db w) ->
         image_path q <> Some (lit "/uploads/" ++ fname)) ->
      forall q, q ∈ rows (db w') ->
         image_path q <> Some (lit "/uploads/" ++ fname)).
Proof.
  intros Ef St w' fname written.
  assert (Hw : w' = snd (upload_single dirname e (req_image req) w)).
  { subst w'. revert St. rewrite post_posts_unfold. unfold create_post.
    destruct (req_body req ≫= form_name) as [n|]; [|reflexivity].
    destruct (req_body req ≫= form_message) as [m|]; [|reflexivity].
    destruct (_ || _); [reflexivity|].
    destruct (300 <? jslength m); [reflexivity|].
    destruct (db_insert_err e); simpl; intros; lia. }
  rewrite Hw, Ef. simpl. fold fname. fold written.
  repeat split; trivial. set_solver.
Qed.

End CreateProperties.

(** ** Listing *)

Lemma place_desc_perm (p : post) (l : list post) :
  Permutation (place_desc p l) (p :: l).
Proof.
  induction l as [|q l IH]; simpl; [reflexivity|].
  destruct (created_at p <=? created_at q); [|reflexivity].
  rewrite IH. apply perm_swap.
Qed.

Lemma order_by_perm (l : list post) :
  Permutation (order_by_created_at_desc l) l.
Proof.
  induction l as [|p l IH] using rev_ind; [reflexivity|].
  rewrite order_by_snoc, place_desc_perm, IH.
  apply Permutation_cons_append.
Qed.

Lemma place_desc_sorted (p : post) (l : list post) :
  newest_first l -> newest_first (place_desc p l).
Proof.
  unfold newest_first. induction 1 as [|q l Hs IH Hq]; simpl.
  - repeat constructor.
  - destruct (created_at p <=? created_at q) eqn:E.
    + apply N.leb_le in E. constructor; [exact IH|].
      apply Forall_forall. intros x Hx.
      apply list_elem_of_In in Hx.
      apply (Permutation_in _ (place_desc_perm p l)) in Hx as [<-|Hx];
        [exact E|].
      rewrite List.Forall_forall in Hq. now apply Hq.
    + apply N.leb_gt in E. constructor; [now constructor|].
      constructor; [lia|].
      eapply Forall_impl; [exact Hq|]. simpl. intros; lia.
Qed.

Lemma order_by_sorted (l : list post) :
  newest_first (order_by_created_at_desc l).
Proof.
  induction l as [|p l IH] using rev_ind; [constructor|].
  rewrite order_by_snoc. now apply place_desc_sorted.
Qed.

Section ListProperties.

Context `{Runtime}.
Variable dirname : list N.

Lemma create_post_201 e body file w p :
  fst (create_post e body file w) = Response 201 (JsonPost p) ->
  rows (db (snd (create_post e body file w))) = rows (db w) ++ [p]
  /\ created_at p = handler_now e.
Proof.
  unfold create_post.
  destruct (body ≫= form_name) as [n|]; [|discriminate].
  destruct (body ≫= form_message) as [m|]; [|discriminate].
  destruct (_ || _); [discriminate|].
  destruct (300 <? jslength m); [discriminate|].
  destruct (db_insert_err e); [discriminate|].
  cbn [fst snd sql_insert db set_db log rows]. intros [= <-].
  split; reflexivity.
Qed.

Lemma post_posts_201 e req w p :
  fst (post_posts dirname e req w) = Response 201 (JsonPost p) ->
  rows (db (snd (post_posts dirname e req w))) = rows (db w) ++ [p]
  /\ created_at p = handler_now e.
Proof.
  rewrite post_posts_unfold. intros E. apply create_post_201 in E.
  now rewrite upload_single_db in E.
Qed.

(** C4. The listing answers 200 with all the rows of the table, each once,
    newest first; with no rows it is the empty sequence; the table is as it
    was. After three posts A, B, C created in this order on an empty table
    with increasing creation times, the listing is C, B, A. *)
Theorem list_newest_first :
  (forall e w, db_all_err e = None ->
     exists l,
       fst (get_posts e w) = Response 200 (JsonRows l)
       /\ Permutation l (rows (db w))
       /\ newest_first l
       /\ (rows (db w) = [] -> l = [])
       /\ db (snd (get_posts e w)) = db w)
  /\ (forall e1 e2 e3 req1 req2 req3 w0 a b c,
        rows (db w0) = [] ->
        let s1 := post_posts dirname e1 req1 w0 in
        let s2 := post_posts dirname e2 req2 (snd s1) in
        let s3 := post_posts dirname e3 req3 (snd s2) in
        fst s1 = Response 201 (JsonPost a) ->
        fst s2 = Response 201 (JsonPost b) ->
        fst s3 = Response 201 (JsonPost c) ->
        created_at a < created_at b -> created_at b < created_at c ->
        forall e, db_all_err e = None ->
          fst (get_posts e (snd s3)) = Response 200 (JsonRows [c; b; a])).
Proof.
  split.
  - intros e w Ea. exists (sql_select_all (db w)).
    unfold get_posts. rewrite Ea. cbn [fst snd db log]. unfold sql_select_all.
    split; [reflexivity|]. split; [apply order_by_perm|].
    split; [apply order_by_sorted|]. split; [|reflexivity].
    intros ->. reflexivity.
  - intros e1 e2 e3 req1 req2 req3 w0 a b c E0 s1 s2 s3 Ra Rb Rc Lab Lbc e Ea.
    apply post_posts_201 in Ra as [Ra _], Rb as [Rb _], Rc as [Rc _].
    fold s1 in Ra. fold s2 in Rb. fold s3 in Rc.
    unfold get_posts. rewrite Ea. cbn [fst snd db log]. unfold sql_select_all.
    rewrite Rc, Rb, Ra, E0. cbn [app]. unfold order_by_created_at_desc.
    cbn [fold_left place_desc].
    apply N.leb_gt in Lab, Lbc. rewrite Lab. cbn [place_desc]. rewrite Lbc.
    reflexivity.
Qed.

End ListProperties.

(** ** Deleting *)

Lemma has_rowid_false (k : option N) (p : post) :
  has_rowid k p = false <-> k <> Some (id p).
Proof.
  destruct k as [i|]; simpl; [|split; [discriminate|reflexivity]].
  rewrite N.eqb_neq. split; intros E; congruence.
Qed.

Lemma has_rowid_true (k : option N) (p : post) :
  has_rowid k p = true <-> k = Some (id p).
Proof.
  destruct k as [i|]; simpl; [|split; discriminate].
  rewrite N.eqb_eq. split; intros E; congruence.
Qed.

Lemma select_none_iff (d : database) (k : option N) :
  sql_select_image_path d k = None
  <-> forall p, p ∈ rows d -> k <> Some (id p).
Proof.
  unfold sql_select_image_path. induction (rows d) as [|q l IH]; simpl.
  - split; [|reflexivity]. intros _ p Hp. inversion Hp.
  - destruct (has_rowid k q) eqn:E.
    + split; [discriminate|]. intros A. apply has_rowid_true in E.
      destruct (A q); [left|exact E].
    + rewrite IH. apply has_rowid_false in E. split.
      * intros A p Hp. apply elem_of_cons in Hp as [->|Hp]; auto.
      * intros A p Hp. apply A. now right.
Qed.

Lemma select_some (d : database) (k : option N) (p : post) :
  p ∈ rows d -> k = Some (id p) ->
  exists img, sql_select_image_path d k = Some img.
Proof.
  intros Hp Hk. destruct (sql_select_image_path d k) as [img|] eqn:E.
  - now exists img.
  - rewrite select_none_iff in E. destruct (E p Hp Hk).
Qed.

Lemma deleted_rows (d : database) (k : option N) (q : post) :
  q ∈ rows (sql_delete d k) <-> q ∈ rows d /\ k <> Some (id q).
Proof.
  unfold sql_delete. cbn [rows].
  rewrite !list_elem_of_In, filter_In, negb_true_iff, has_rowid_false.
  reflexivity.
Qed.

Lemma select_after_delete (d : database) (k : option N) :
  sql_select_image_path (sql_delete d k) k = None.
Proof.
  apply select_none_iff. intros p Hp. now apply deleted_rows in Hp.
Qed.

Section DeleteProperties.

Context `{Runtime}.
Variable dirname : list N.

Lemma remove_image_db e img w : db (remove_image dirname e img w) = db w.
Proof.
  unfold remove_image. destruct img as [s|]; [|reflexivity].
  destruct (truthy s); [|reflexivity].
  destruct (fs_unlink _ _ _) as [f [err|]]; [|reflexivity].
  destruct (negb _); reflexivity.
Qed.

Lemma delete_post_404 e param w :
  db_get_err e = None ->
  sql_select_image_path (db w) (rowid_of_text param) = None ->
  delete_post dirname e param w
  = (NOT_FOUND, log (DbGet (rowid_of_text param)) w).
Proof.
  intros Eg En. unfold delete_post. rewrite Eg. cbn [db log]. now rewrite En.
Qed.

Lemma delete_post_200 e param w :
  status (fst (delete_post dirname e param w)) = 200 ->
  db_get_err e = None /\ db_delete_err e = None
  /\ db (snd (delete_post dirname e param w))
     = sql_delete (db w) (rowid_of_text param).
Proof.
  unfold delete_post.
  destruct (db_get_err e); [simpl; intros; lia|]. cbn [db log].
  destruct (sql_select_image_path _ _); [|simpl; intros; lia].
  destruct (db_delete_err e); [simpl; intros; lia|].
  intros _. cbn [snd]. rewrite remove_image_db. repeat split.
Qed.

(** The four ways through the delete handler. *)
Lemma delete_post_cases e param w :
  let k := rowid_of_text param in
  let w1 := log (DbGet k) w in
  let w2 := log (DbDelete k) w1 in
  (db_get_err e <> None
   /\ delete_post dirname e param w
      = (Response 500 (JsonError "삭제 중 오류"),
         log (ConsoleError "❌ DB 조회 오류(삭제):") w1))
  \/ (db_get_err e = None /\ sql_select_image_path (db w) k = None
      /\ delete_post dirname e param w = (NOT_FOUND, w1))
  \/ (exists img,
        db_get_err e = None /\ sql_select_image_path (db w) k = Some img
        /\ db_delete_err e <> None
        /\ delete_post dirname e param w
           = (DELETE_FAILED, log (ConsoleError "❌ DB 삭제 오류:") w2))
  \/ (exists img,
        db_get_err e = None /\ sql_select_image_path (db w) k = Some img
        /\ db_delete_err e = None
        /\ delete_post dirname e param w
           = (Response 200 JsonSuccess,
              remove_image dirname e img (set_db (sql_delete (db w) k) w2))).
Proof.
  intros k w1 w2. unfold delete_post. fold k. fold w1.
  destruct (db_get_err e) eqn:Eg; [left; split; [discriminate|reflexivity]|].
  right. cbn [db log]. subst w1. cbn [db log].
  destruct (sql_select_image_path (db w) k) as [img|] eqn:Es;
    [|left; repeat split].
  right. destruct (db_delete_err e) eqn:Ed.
  - left. exists img. repeat split. discriminate.
  - right. exists img. repeat split.
Qed.

(** What the file removal adds to the trace. *)
Lemma remove_image_trace e img w :
  exists evs,
    trace (remove_image dirname e img w) = trace w ++ evs
    /\ (forall ev, ev ∈ evs -> is_unlink ev = true \/ is_warning ev = true)
    /\ (unlink_err e = None -> forall ev, ev ∈ evs -> is_warning ev = false)
    /\ (forall err, unlink_err e = Some err -> code err = "ENOENT"%string ->
        forall ev, ev ∈ evs -> is_warning ev = false)
    /\ (forall err, unlink_err e = Some err -> code err <> "ENOENT"%string ->
        forall path, FsUnlink path ∈ evs ->
        ConsoleWarn WARN_UNLINK (emessage err) ∈ evs)
    /\ (forall path, FsUnlink path ∈ evs ->
        exists evs', evs = FsUnlink path :: evs').
Proof.
  unfold remove_image.
  destruct img as [s|];
    [destruct (truthy s)|];
    try (exists []; rewrite app_nil_r; repeat split;
         intros; match goal with X : _ ∈ [] |- _ => inversion X end).
  set (fullPath := Path.join _).
  unfold fs_unlink. destruct (unlink_err e) as [err|] eqn:Eu.
  - cbn [log set_files trace files db]. destruct (String.eqb_spec (code err) "ENOENT") as [Ec|Ec];
      cbn [negb log trace].
    + exists [FsUnlink fullPath]. repeat split.
      * intros ev Hev. apply list_elem_of_singleton in Hev as ->. now left.
      * discriminate.
      * intros err' _ _ ev Hev. now apply list_elem_of_singleton in Hev as ->.
      * intros err' [= <-] Ne. contradiction.
      * intros path Hp. apply list_elem_of_singleton in Hp as [= <-]. now exists [].
    + exists [FsUnlink fullPath; ConsoleWarn WARN_UNLINK (emessage err)].
      rewrite <- app_assoc. repeat split.
      * intros ev Hev. apply elem_of_cons in Hev as [->|Hev]; [now left|].
        apply list_elem_of_singleton in Hev as ->. now right.
      * discriminate.
      * intros err' [= <-] Ee. contradiction.
      * intros err' [= <-] _ path _. right. left.
      * intros path Hp. apply elem_of_cons in Hp as [[= <-]|Hp]; [eauto|].
        apply list_elem_of_singleton in Hp. discriminate.
  - destruct (bool_decide _); cbn [log set_files trace files db String.eqb code ENOENT negb];
      (exists [FsUnlink fullPath]; repeat split;
       [ intros ev Hev; apply list_elem_of_singleton in Hev as ->; now left
       | intros _ ev Hev; now apply list_elem_of_singleton in Hev as ->
       | discriminate
       | discriminate
       | intros path Hp; apply list_elem_of_singleton in Hp as [= <-]; now exists [] ]).
Qed.

(** C6. Deleting an id that no row has is answered 404 and leaves the table
    and the files as they were. Hence after a delete answered 200, a second
    delete of the same id is never answered 200 again: it is answered 404
    whenever its lookup returns, and changes nothing in the table. *)
Theorem delete_unknown_id_not_found :
  (forall e param w,
     db_get_err e = None ->
     (forall p, p ∈ rows (db w) -> rowid_of_text param <> Some (id p)) ->
     fst (delete_post dirname e param w) = NOT_FOUND
     /\ db (snd (delete_post dirname e param w)) = db w
     /\ files (snd (delete_post dirname e param w)) = files w)
  /\ (forall e1 e2 param w,
        status (fst (delete_post dirname e1 param w)) = 200 ->
        let w1 := snd (delete_post dirname e1 param w) in
        status (fst (delete_post dirname e2 param w1)) <> 200
        /\ db (snd (delete_post dirname e2 param w1)) = db w1
        /\ (db_get_err e2 = None ->
            fst (delete_post dirname e2 param w1) = NOT_FOUND)).
Proof.
  split.
  - intros e param w Eg Hn. apply select_none_iff in Hn.
    rewrite delete_post_404 by assumption. repeat split.
  - intros e1 e2 param w S1 w1. apply delete_post_200 in S1 as (_ & _ & Ed).
    fold w1 in Ed.
    assert (En : sql_select_image_path (db w1) (rowid_of_text param) = None)
      by (rewrite Ed; apply select_after_delete).
    destruct (db_get_err e2) as [err|] eqn:Eg.
    + unfold delete_post. rewrite Eg. cbn. repeat split; [lia|discriminate].
    + rewrite delete_post_404 by assumption. cbn. repeat split. lia.
Qed.

(** C7. When the row exists and its lookup and deletion succeed, the answer
    is 200 with [{success: true}] whatever the file removal does. A removal
    that reports no error or ENOENT (the file is missing) logs no warning;
    any other removal error is logged as a warning, and the answer is the
    same. The row is gone from the table. *)
Theorem delete_answer_ignores_unlink e param w p :
  p ∈ rows (db w) -> rowid_of_text param = Some (id p) ->
  db_get_err e = None -> db_delete_err e = None ->
  let k := rowid_of_text param in
  let w' := snd (delete_post dirname e param w) in
  fst (delete_post dirname e param w) = Response 200 JsonSuccess
  /\ (forall q, q ∈ rows (db w') -> id q <> id p)
  /\ exists evs,
       trace w' = trace w ++ DbGet k :: DbDelete k :: evs
       /\ (unlink_err e = None ->
           forall ev, ev ∈ evs -> is_warning ev = false)
       /\ (forall err, unlink_err e = Some err ->
           code err = "ENOENT"%string ->
           forall ev, ev ∈ evs -> is_warning ev = false)
       /\ (forall err, unlink_err e = Some err ->
           code err <> "ENOENT"%string ->
           forall path, FsUnlink path ∈ evs ->
           ConsoleWarn WARN_UNLINK (emessage err) ∈ evs).
Proof.
  intros Hp Hk Eg Ed k w'. subst k w'.
  destruct (select_some (db w) _ p Hp Hk) as [img Es].
  destruct (delete_post_cases e param w)
    as [[A _]|[(_ & A & _)|[(i & _ & _ & A & _)|(i & _ & Ei & _ & E)]]];
    try congruence.
  rewrite E. cbn [fst snd]. split; [reflexivity|].
  split.
  - intros q Hq. rewrite remove_image_db in Hq. cbn [db set_db] in Hq.
    apply deleted_rows in Hq as [_ Hq]. congruence.
  - destruct (remove_image_trace e i
                (set_db (sql_delete (db w) (rowid_of_text param))
                   (log (DbDelete (rowid_of_text param))
                      (log (DbGet (rowid_of_text param)) w))))
      as (evs & Et & _ & E1 & E2 & E3 & _).
    exists evs. rewrite Et. cbn [trace set_db log].
    rewrite <- !app_assoc. repeat split; assumption.
Qed.

(** C8. The row is deleted first. When the deletion of an existing row
    fails, the answer is 500, the table and the files are as they were, and
    the trace shows the lookup, the failed deletion and the error line, with
    no file removal. In every run, an answer other than 200 leaves the files
    as they were, and a file removal appears in the trace only after the
    lookup and the deletion, in a run answered 200 whose table is the old one
    without the row. *)
Theorem delete_row_before_file e param w :
  let k := rowid_of_text param in
  let r := fst (delete_post dirname e param w) in
  let w' := snd (delete_post dirname e param w) in
  (forall p err2,
     p ∈ rows (db w) -> k = Some (id p) ->
     db_get_err e = None -> db_delete_err e = Some err2 ->
     r = DELETE_FAILED /\ db w' = db w /\ files w' = files w
     /\ trace w' = trace w ++ [DbGet k; DbDelete k;
                               ConsoleError "❌ DB 삭제 오류:"])
  /\ (status r <> 200 -> files w' = files w /\ db w' = db w)
  /\ (forall evs path,
        trace w' = trace w ++ evs -> FsUnlink path ∈ evs ->
        r = Response 200 JsonSuccess
        /\ db_delete_err e = None
        /\ db w' = sql_delete (db w) k
        /\ exists evs', evs = DbGet k :: DbDelete k :: FsUnlink path :: evs').
Proof.
  intros k r w'. subst k r w'.
  destruct (delete_post_cases e param w)
    as [[A E]|[(Eg & A & E)|[(i & Eg & Ei & A & E)|(i & Eg & Ei & Ed & E)]]];
    rewrite E; cbn [fst snd status db files trace log set_db];
    (split; [|split]).
  - intros p err2 _ _ Eg _. congruence.
  - split; reflexivity.
  - intros evs path Et Hp. rewrite <- app_assoc in Et.
    apply app_inv_head in Et as <-.
    repeat (apply elem_of_cons in Hp as [Hp|Hp]; [discriminate|]).
    inversion Hp.
  - intros p err2 Hp Hk _ _. rewrite select_none_iff in A.
    destruct (A p Hp Hk).
  - split; reflexivity.
  - intros evs path Et Hp. apply app_inv_head in Et as <-.
    apply list_elem_of_singleton in Hp. discriminate.
  - intros p err2 _ _ _ _. rewrite <- !app_assoc. repeat split.
  - split; reflexivity.
  - intros evs path Et Hp. rewrite <- !app_assoc in Et.
    apply app_inv_head in Et as <-.
    repeat (apply elem_of_cons in Hp as [Hp|Hp]; [discriminate|]).
    inversion Hp.
  - intros p err2 _ _ _ Ed'. congruence.
  - intros N200. now destruct N200.
  - intros evs path Et Hp. rewrite remove_image_db. cbn [db set_db].
    repeat split; trivial.
    destruct (remove_image_trace e i
                (set_db (sql_delete (db w) (rowid_of_text param))
                   (log (DbDelete (rowid_of_text param))
                      (log (DbGet (rowid_of_text param)) w))))
      as (evs0 & Et0 & _ & _ & _ & _ & E4).
    rewrite Et0 in Et. cbn [trace set_db log] in Et.
    rewrite <- !app_assoc in Et. apply app_inv_head in Et as <-.
    cbn [app] in Hp.
    apply elem_of_cons in Hp as [Hp|Hp]; [discriminate|].
    apply elem_of_cons in Hp as [Hp|Hp]; [discriminate|].
    destruct (E4 path Hp) as [evs' ->]. now exists evs'.
Qed.

End DeleteProperties.

(** ** Paths *)

Lemma split_slash_nonempty (s : list N) : Path.split_slash s <> [].
Proof.
  destruct s as [|c s]; simpl; [discriminate|].
  destruct (c =? CHAR_FORWARD_SLASH); [discriminate|].
  destruct (Path.split_slash s); discriminate.
Qed.

Lemma split_slash_app (s t : list N) :
  Path.split_slash (s ++ CHAR_FORWARD_SLASH :: t)
  = Path.split_slash s ++ Path.split_slash t.
Proof.
  induction s as [|c s IH]; [reflexivity|].
  cbn [app Path.split_slash]. rewrite IH.
  destruct (c =? CHAR_FORWARD_SLASH); [reflexivity|].
  destruct (Path.split_slash s) eqn:E; [|reflexivity].
  now apply split_slash_nonempty in E.
Qed.

Lemma split_slash_free (seg : list N) :
  CHAR_FORWARD_SLASH ∉ seg -> Path.split_slash seg = [seg].
Proof.
  induction seg as [|c seg IH]; [reflexivity|].
  intros Hc. apply not_elem_of_cons in Hc as [Hc Hs].
  cbn [Path.split_slash]. rewrite (IH Hs).
  destruct (N.eqb_spec c CHAR_FORWARD_SLASH); [congruence|reflexivity].
Qed.

Lemma split_join_plain (segs : list (list N)) :
  Forall plain segs -> segs <> [] ->
  Path.split_slash (Path.join_slash segs) = segs.
Proof.
  induction 1 as [|seg segs Hp Hs IH]; [congruence|]. intros _.
  destruct segs as [|seg' segs'].
  - simpl. apply split_slash_free, Hp.
  - change (Path.join_slash (seg :: seg' :: segs'))
      with (seg ++ CHAR_FORWARD_SLASH :: Path.join_slash (seg' :: segs')).
    rewrite split_slash_app, IH by discriminate.
    rewrite split_slash_free by apply Hp. reflexivity.
Qed.

Lemma join_slash_snoc (segs : list (list N)) (seg : list N) :
  segs <> [] ->
  Path.join_slash (segs ++ [seg])
  = Path.join_slash segs ++ CHAR_FORWARD_SLASH :: seg.
Proof.
  induction segs as [|a segs IH]; [congruence|]. intros _.
  destruct segs as [|b segs]; [reflexivity|].
  change (Path.join_slash ((a :: b :: segs) ++ [seg]))
    with (a ++ CHAR_FORWARD_SLASH :: Path.join_slash ((b :: segs) ++ [seg])).
  rewrite IH by discriminate.
  change (Path.join_slash (a :: b :: segs))
    with (a ++ CHAR_FORWARD_SLASH :: Path.join_slash (b :: segs)).
  now rewrite <- app_assoc.
Qed.

Lemma units_eqb_ne (a b : list N) : a <> b -> Path.units_eqb a b = false.
Proof. unfold Path.units_eqb. apply bool_decide_eq_false. Qed.

Lemma normalize_step_plain b stack seg :
  plain seg -> Path.normalize_step b stack seg = seg :: stack.
Proof.
  intros (H1 & H2 & H3 & _). unfold Path.normalize_step.
  now rewrite !units_eqb_ne.
Qed.

Lemma normalize_step_empty b stack : Path.normalize_step b stack [] = stack.
Proof. reflexivity. Qed.

(** Segments that are empty or ordinary: the empty ones are dropped and the
    others kept in order. *)
Lemma normalize_fold b (l : list (list N)) (stack : list (list N)) :
  Forall (fun seg => seg = [] \/ plain seg) l ->
  fold_left (Path.normalize_step b) l stack
  = rev (filter (fun seg => seg <> []) l) ++ stack.
Proof.
  intros Hl. revert stack. induction Hl as [|seg l [->|Hp] _ IH]; intros stack.
  - reflexivity.
  - cbn [fold_left]. rewrite normalize_step_empty, IH.
    now rewrite filter_cons_False by congruence.
  - cbn [fold_left]. rewrite (normalize_step_plain _ _ _ Hp), IH.
    rewrite filter_cons_True by apply Hp.
    cbn [rev]. now rewrite <- app_assoc.
Qed.

Lemma ends_with_slash_snoc (s : list N) (c : N) :
  Path.ends_with_slash (s ++ [c]) = (c =? CHAR_FORWARD_SLASH).
Proof. unfold Path.ends_with_slash. now rewrite rev_unit. Qed.

Lemma ends_with_slash_last (s : list N) (seg : list N) :
  last (Path.split_slash s) = Some seg -> seg <> [] ->
  Path.ends_with_slash s = false.
Proof.
  destruct s as [|c s _] using rev_ind; [reflexivity|].
  rewrite ends_with_slash_snoc. intros Hl Hne.
  destruct (N.eqb_spec c CHAR_FORWARD_SLASH) as [->|]; [|reflexivity].
  change (s ++ [CHAR_FORWARD_SLASH]) with (s ++ CHAR_FORWARD_SLASH :: []) in Hl.
  rewrite split_slash_app in Hl. cbn [Path.split_slash] in Hl.
  rewrite last_snoc in Hl. congruence.
Qed.

Lemma join_slash_nonempty (l : list (list N)) (seg : list N) :
  seg ∈ l -> Forall (fun x => x <> []) l -> Path.join_slash l <> [].
Proof.
  intros Hin Hl. destruct Hl as [|a l Ha _]; [inversion Hin|].
  destruct a as [|c a]; [congruence|]. destruct l; discriminate.
Qed.

Lemma filter_nonempty_plain (l : list (list N)) :
  Forall plain l -> filter (fun seg => seg <> []) l = l.
Proof.
  induction 1 as [|seg l Hp _ IH]; [reflexivity|].
  rewrite filter_cons_True by apply Hp. now rewrite IH.
Qed.

Lemma split_abs_path_cons (segs : list (list N)) :
  Path.split_slash (abs_path segs)
  = [] :: Path.split_slash (Path.join_slash segs).
Proof. reflexivity. Qed.

Lemma split_abs_path (segs : list (list N)) :
  Forall plain segs ->
  Forall (fun seg => seg = [] \/ plain seg) (Path.split_slash (abs_path segs))
  /\ filter (fun seg => seg <> []) (Path.split_slash (abs_path segs)) = segs.
Proof.
  intros Hs. rewrite split_abs_path_cons.
  destruct segs as [|a segs].
  - split; [repeat constructor; now left|reflexivity].
  - rewrite split_join_plain by (assumption || discriminate). split.
    + constructor; [now left|]. eapply Forall_impl; [exact Hs|]. now right.
    + rewrite filter_cons_False by congruence.
      now apply filter_nonempty_plain.
Qed.

Lemma normalize_abs_app (segs xs : list (list N)) :
  Forall plain segs -> Forall plain xs -> xs <> [] ->
  Path.normalize (abs_path segs ++ CHAR_FORWARD_SLASH :: Path.join_slash xs)
  = abs_path (segs ++ xs).
Proof.
  intros Hs Hx Hne.
  destruct (split_abs_path segs Hs) as [Ha Hf].
  set (s := abs_path segs ++ CHAR_FORWARD_SLASH :: Path.join_slash xs).
  assert (Esplit : Path.split_slash s = Path.split_slash (abs_path segs) ++ xs).
  { subst s. now rewrite split_slash_app, split_join_plain. }
  assert (Hall : Forall (fun seg => seg = [] \/ plain seg) (Path.split_slash s)).
  { rewrite Esplit. apply Forall_app. split; [exact Ha|].
    eapply Forall_impl; [exact Hx|]. now right. }
  assert (Ekeep : filter (fun seg => seg <> []) (Path.split_slash s) = segs ++ xs).
  { rewrite Esplit, filter_app, Hf. f_equal.
    now apply filter_nonempty_plain. }
  destruct (last xs) as [xl|] eqn:El;
    [|apply last_None in El; congruence].
  assert (Hlast : plain xl).
  { rewrite Forall_forall in Hx. apply Hx. now apply last_Some_elem_of. }
  assert (Etrail : Path.ends_with_slash s = false).
  { apply (ends_with_slash_last s xl); [|apply Hlast].
    rewrite Esplit, last_app, El. reflexivity. }
  unfold Path.normalize. change (truthy s) with true.
  change (Path.starts_with_slash s) with true. cbn [negb]. cbv zeta.
  unfold Path.normalizeString.
  rewrite (normalize_fold _ _ _ Hall), app_nil_r, rev_involutive, Ekeep, Etrail.
  assert (Hnz : Path.join_slash (segs ++ xs) <> []).
  { apply (join_slash_nonempty _ xl).
    - apply elem_of_app. right. now apply last_Some_elem_of.
    - apply Forall_app. split; (eapply Forall_impl; [eassumption|]);
        intros y Hy; apply Hy. }
  apply truthy_nonempty in Hnz. rewrite Hnz. reflexivity.
Qed.

Lemma truthy_abs_path segs : truthy (abs_path segs) = true.
Proof. reflexivity. Qed.

(** [path.join(dir, a, x)] for a normalized absolute [dir], an ordinary
    segment [a] and ordinary segments [x] joined with [/]. *)
Lemma join_dir_3 (segs : list (list N)) (a : list N) (xs : list (list N)) :
  Forall plain segs -> plain a -> Forall plain xs -> xs <> [] ->
  Path.join [abs_path segs; a; Path.join_slash xs] = abs_path (segs ++ a :: xs).
Proof.
  intros Hs Ha Hx Hne. unfold Path.join.
  assert (Ta : truthy a = true) by (apply truthy_nonempty, Ha).
  assert (Tx : truthy (Path.join_slash xs) = true).
  { apply truthy_nonempty. destruct xs as [|x xs]; [congruence|].
    apply (join_slash_nonempty _ x); [now left|].
    eapply Forall_impl; [exact Hx|]. intros y Hy. apply Hy. }
  cbn [List.filter]. rewrite truthy_abs_path, Ta, Tx.
  change (Path.join_slash [abs_path segs; a; Path.join_slash xs])
    with (abs_path segs ++ CHAR_FORWARD_SLASH
            :: (a ++ CHAR_FORWARD_SLASH :: Path.join_slash xs)).
  destruct xs as [|x xs]; [congruence|].
  change (a ++ CHAR_FORWARD_SLASH :: Path.join_slash (x :: xs))
    with (Path.join_slash (a :: x :: xs)).
  apply normalize_abs_app; [assumption| now constructor | discriminate].
Qed.

(** [path.join(dir, f)] for a normalized absolute [dir] and an ordinary
    segment [f]. *)
Lemma join_dir_2 (segs : list (list N)) (f : list N) :
  Forall plain segs -> plain f ->
  Path.join [abs_path segs; f] = abs_path (segs ++ [f]).
Proof.
  intros Hs Hf. unfold Path.join.
  assert (Tf : truthy f = true) by (apply truthy_nonempty, Hf).
  cbn [List.filter]. rewrite truthy_abs_path, Tf.
  change (Path.join_slash [abs_path segs; f])
    with (abs_path segs ++ CHAR_FORWARD_SLASH :: Path.join_slash [f]).
  apply normalize_abs_app; [assumption| now constructor | discriminate].
Qed.

Lemma abs_path_snoc (segs : list (list N)) (f : list N) :
  segs <> [] ->
  abs_path (segs ++ [f]) = abs_path segs ++ CHAR_FORWARD_SLASH :: f.
Proof. intros Hne. unfold abs_path. now rewrite join_slash_snoc. Qed.

Lemma starts_with_app (a b : list N) : starts_with a (a ++ b) = true.
Proof.
  induction a as [|c a IH]; [reflexivity|].
  cbn [app starts_with]. now rewrite N.eqb_refl, IH.
Qed.

Lemma inside_dir_child (dir f : list N) :
  f <> [] -> inside_dir dir (dir ++ CHAR_FORWARD_SLASH :: f) = true.
Proof.
  intros Hf. unfold inside_dir.
  change (dir ++ CHAR_FORWARD_SLASH :: f)
    with (dir ++ [CHAR_FORWARD_SLASH] ++ f).
  rewrite app_assoc, starts_with_app. cbn [andb].
  apply Nat.ltb_lt. rewrite !length_app. cbn [List.length].
  destruct f; [congruence|]. cbn [List.length]. lia.
Qed.

Lemma plain_decide (seg : list N) : bool_decide (plain seg) = true -> plain seg.
Proof. apply bool_decide_eq_true. Qed.

Lemma plain_public : plain (lit "public").
Proof. apply plain_decide. vm_compute. reflexivity. Qed.

Lemma plain_uploads : plain (lit "uploads").
Proof. apply plain_decide. vm_compute. reflexivity. Qed.

(** ** The file the delete handler removes *)

Lemma remove_image_unlinks (dirname : list N) e s w :
  truthy s = true ->
  let path := Path.join [dirname; lit "public"; strip_leading_slashes s] in
  let w' := remove_image dirname e (Some s) w in
  (exists evs,
     trace w' = trace w ++ FsUnlink path :: evs
     /\ forall ev, ev ∈ evs -> is_unlink ev = false)
  /\ (files w' = files w \/ files w' = files w ∖ {[path]}).
Proof.
  intros Ts path w'. subst w'. unfold remove_image. rewrite Ts. fold path.
  unfold fs_unlink. destruct (unlink_err e) as [err|].
  - destruct (negb _); cbn [trace files log set_files]; split; try now left.
    + exists [ConsoleWarn "⚠ 이미지 파일 삭제 실패:" (emessage err)].
      rewrite <- app_assoc. split; [reflexivity|].
      intros ev Hev. now apply list_elem_of_singleton in Hev as ->.
    + exists []. split; [reflexivity|]. intros ev Hev. inversion Hev.
  - destruct (bool_decide _);
      cbn [trace files log set_files String.eqb code ENOENT negb];
      (split; [exists []; split; [reflexivity|intros ev Hev; inversion Hev]|]);
      [now right|now left].
Qed.

Lemma uploadDir_abs (segs : list (list N)) :
  Forall plain segs ->
  uploadDir (abs_path segs) = abs_path (segs ++ [lit "public"; lit "uploads"]).
Proof.
  intros Hs. unfold uploadDir.
  change (lit "uploads") with (Path.join_slash [lit "uploads"]) at 1.
  apply join_dir_3; [assumption|apply plain_public| |discriminate].
  constructor; [apply plain_uploads|constructor].
Qed.

Lemma join_image_path (segs : list (list N)) (f : list N) :
  Forall plain segs -> plain f ->
  Path.join [abs_path segs; lit "public";
             strip_leading_slashes (lit "/uploads/" ++ f)]
  = uploadDir (abs_path segs) ++ CHAR_FORWARD_SLASH :: f.
Proof.
  intros Hs Hf.
  change (strip_leading_slashes (lit "/uploads/" ++ f))
    with (Path.join_slash [lit "uploads"; f]).
  rewrite join_dir_3;
    [|assumption|apply plain_public| |discriminate].
  - rewrite uploadDir_abs by assumption.
    change (segs ++ [lit "public"; lit "uploads"; f])
      with (segs ++ [lit "public"; lit "uploads"] ++ [f]).
    rewrite app_assoc. apply abs_path_snoc. now destruct segs.
  - constructor; [apply plain_uploads|]. constructor; [assumption|constructor].
Qed.

(** ** The names a create stores *)

Lemma digit_not_slash (c : N) : is_digit c -> c <> CHAR_FORWARD_SLASH.
Proof. unfold is_digit, CHAR_FORWARD_SLASH. lia. Qed.

Lemma allowlisted_not_slash (c : N) : allowlisted c -> c <> CHAR_FORWARD_SLASH.
Proof. unfold allowlisted, CHAR_FORWARD_SLASH. lia. Qed.

(** The stored file name is an ordinary path segment whenever the extension
    holds no [/]. *)
Lemma filename_plain `{Runtime} (now : N) (file : file_part) :
  CHAR_FORWARD_SLASH ∉ extname (originalname file) ->
  plain (filename now file).
Proof.
  intros Hext. unfold filename.
  pose proof (safe_base_allowlisted
                (basename (originalname file) (extname (originalname file))))
    as Ha.
  cbv zeta in Ha.
  pose proof (digits_nonempty now) as Hne.
  pose proof (digits_are_digits now) as Hd.
  destruct (digits now) as [|d ds] eqn:Ed; [congruence|].
  apply Forall_cons in Hd as [Hd Hds].
  assert (d <> CHAR_DOT) by (unfold is_digit, CHAR_DOT in *; lia).
  repeat split.
  - discriminate.
  - unfold Path.DOT. intros [= ? _]. congruence.
  - unfold Path.DOTDOT. intros [= ? _]. congruence.
  - cbn [app]. intros Hin.
    apply elem_of_cons in Hin as [E|Hin];
      [apply digit_not_slash in Hd; congruence|].
    apply elem_of_app in Hin as [Hin|Hin].
    { rewrite Forall_forall in Hds. now apply Hds, digit_not_slash in Hin. }
    apply elem_of_cons in Hin as [E|Hin]; [discriminate E|].
    apply elem_of_app in Hin as [Hin|Hin]; [|contradiction].
    rewrite Forall_forall in Ha. now apply Ha, allowlisted_not_slash in Hin.
Qed.

(** ** The extension Node computes holds no [/] *)

Lemma extname_loop_post (path chars seen : list N) (i : Z)
    (st : Path.ext_state) :
  path = rev chars ++ seen -> (i + 1 = Z.of_nat (List.length chars))%Z ->
  ext_inv path i st -> ext_post path (Path.extname_loop chars i st).
Proof.
  revert seen i st. induction chars as [|code chars IH]; intros seen i st Ep Ei Inv.
  - cbn [Path.extname_loop]. cbn [List.length] in Ei.
    destruct Inv as [(_ & E & _)|(_ & Le & Hs & [Sd|Sd])].
    + right. now left.
    + now left.
    + right. right. split; [lia|]. intros j Hj. apply Hs. lia.
  - cbn [List.length] in Ei.
    assert (Ecode : path !! Z.to_nat i = Some code).
    { rewrite Ep. cbn [rev]. rewrite <- app_assoc.
      rewrite lookup_app_r by (rewrite length_rev; lia).
      replace (Z.to_nat i - List.length (rev chars))%nat with 0%nat
        by (rewrite length_rev; lia).
      reflexivity. }
    assert (Ep' : path = rev chars ++ code :: seen)
      by (rewrite Ep; cbn [rev]; now rewrite <- app_assoc).
    cbn [Path.extname_loop].
    destruct (N.eqb_spec code CHAR_FORWARD_SLASH) as [Es|Es].
    + destruct (Path.matchedSlash st) eqn:Em; cbn [negb].
      * apply (IH (code :: seen)); [exact Ep'|lia|].
        left. destruct Inv as [Inv|(Em' & _)]; [exact Inv|congruence].
      * destruct Inv as [(Em' & _)|(_ & Le & Hs & [Sd|Sd])]; [congruence| |].
        -- now left.
        -- right. right. cbn [Path.startDot Path.end_].
           split; [lia|]. intros j Hj. apply Hs. lia.
    + apply (IH (code :: seen)); [exact Ep'|lia|].
      destruct st as [sd sp en ms pd]. unfold ext_inv in Inv |- *.
      cbn [Path.startDot Path.end_ Path.matchedSlash Path.startPart
           Path.preDotState] in Inv |- *.
      right.
      assert (Hi : forall j, (j = i)%Z ->
                     path !! Z.to_nat j <> Some CHAR_FORWARD_SLASH)
        by (intros j ->; rewrite Ecode; congruence).
      destruct Inv as [(Em & Ee & Sd)|(Em & Le & Hs & Sd)]; subst ms.
      * subst en sd. change ((-1 =? -1)%Z) with true. cbn iota.
        cbn [Path.startDot Path.end_ Path.matchedSlash Path.startPart
             Path.preDotState].
        change ((-1 =? -1)%Z) with true. cbn [negb].
        destruct (code =? CHAR_DOT);
          cbn [Path.startDot Path.end_ Path.matchedSlash Path.startPart
               Path.preDotState];
          (split; [reflexivity|]); (split; [lia|]);
          (split; [intros j Hj; apply Hi; lia|lia]).
      * assert (En : (en =? -1)%Z = false) by (apply Z.eqb_neq; lia).
        rewrite En.
        assert (Hs' : forall j, (i - 1 + 1 <= j < en)%Z ->
                        path !! Z.to_nat j <> Some CHAR_FORWARD_SLASH).
        { intros j Hj. destruct (Z.eq_dec j i) as [E|Hne];
            [now apply Hi|apply Hs; lia]. }
        cbn [Path.startDot Path.end_ Path.matchedSlash Path.startPart
             Path.preDotState].
        destruct (code =? CHAR_DOT);
          [destruct (Z.eqb_spec sd (-1))|];
          try destruct (negb _);
          cbn [Path.startDot Path.end_ Path.matchedSlash Path.startPart
               Path.preDotState];
          (split; [reflexivity|]); (split; [lia|]);
          (split; [exact Hs'|lia]).
Qed.

Lemma posix_extname_no_slash (path : list N) :
  CHAR_FORWARD_SLASH ∉ Path.extname path.
Proof.
  unfold Path.extname.
  set (st := Path.extname_loop _ _ _).
  assert (Post : ext_post path st).
  { apply (extname_loop_post path (rev path) []).
    - now rewrite rev_involutive, app_nil_r.
    - rewrite length_rev. lia.
    - left. repeat split. }
  destruct (Z.eqb_spec (Path.startDot st) (-1)) as [E1|E1];
    [apply not_elem_of_nil|].
  destruct (Z.eqb_spec (Path.end_ st) (-1)) as [E2|E2];
    [apply not_elem_of_nil|].
  cbn [orb]. destruct (_ || _); [apply not_elem_of_nil|].
  destruct Post as [?|[?|[Hr Hs]]]; [contradiction|contradiction|].
  intros Hin. apply list_elem_of_lookup in Hin as [k Hk].
  unfold Path.slice in Hk. apply lookup_take_Some in Hk as [Hk Hlt].
  rewrite lookup_drop in Hk.
  apply (Hs (Path.startDot st + Z.of_nat k)%Z); [lia|].
  rewrite <- Hk. f_equal. lia.
Qed.

(** With Node's [extname] the stored file name is an ordinary segment. *)
Lemma posix_filename_plain (now : N) (file : file_part) :
  plain (filename now file).
Proof. apply filename_plain, posix_extname_no_slash. Qed.

(** The path multer writes and the path the delete handler removes for the
    image path built from the same file name are the same file, directly
    under the upload directory. *)
Lemma written_path_is_removed_path (segs : list (list N)) (f : list N) :
  Forall plain segs -> plain f ->
  Path.join [uploadDir (abs_path segs); f]
  = Path.join [abs_path segs; lit "public";
               strip_leading_slashes (lit "/uploads/" ++ f)].
Proof.
  intros Hs Hf. rewrite join_image_path by assumption.
  rewrite uploadDir_abs by assumption.
  rewrite join_dir_2; [|apply Forall_app; split; [assumption|]|assumption].
  - apply abs_path_snoc. now destruct segs.
  - constructor; [apply plain_public|].
    constructor; [apply plain_uploads|constructor].
Qed.

(** C2, as the code has it. The file removal unlinks
    [path.join(__dirname, "public", p)], where [p] is the stored image path
    without its leading slashes; nothing compares the result with the upload
    directory. For a stored image path [/uploads/f] with [f] an ordinary file
    name, which is what a create stores, the removed path is [f] inside the
    upload directory, it is the only path given to [fs.unlink], and no other
    file disappears. *)
Theorem remove_image_inside_for_plain_name (segs : list (list N)) e w f :
  Forall plain segs -> plain f ->
  let dirname := abs_path segs in
  let w' := remove_image dirname e (Some (lit "/uploads/" ++ f)) w in
  let target := uploadDir dirname ++ CHAR_FORWARD_SLASH :: f in
  inside_dir (uploadDir dirname) target = true
  /\ (exists evs,
        trace w' = trace w ++ FsUnlink target :: evs
        /\ forall ev, ev ∈ evs -> is_unlink ev = false)
  /\ (forall x, x ∈ files w -> x ∉ files w' -> x = target).
Proof.
  intros Hs Hf dirname w' target.
  destruct (remove_image_unlinks dirname e (lit "/uploads/" ++ f) w)
    as [Ht Hfiles]; [reflexivity|].
  subst dirname. rewrite (join_image_path segs f Hs Hf) in Ht, Hfiles.
  split; [apply inside_dir_child, Hf|]. split; [exact Ht|].
  intros x Hx Hnx. subst w'. destruct Hfiles as [E|E]; rewrite E in Hnx.
  - contradiction.
  - apply not_elem_of_difference in Hnx as [Hnx|Hnx]; [contradiction|].
    now apply elem_of_singleton in Hnx.
Qed.

(** ** What [trim] removes and what it leaves *)

Lemma trim_start_suffix (s : list N) :
  exists w, s = w ++ trim_start s /\ forallb is_white_space w = true.
Proof.
  induction s as [|c s (w & E & Hw)]; [now exists []|].
  cbn [trim_start]. destruct (is_white_space c) eqn:Ec.
  - exists (c :: w). cbn [app forallb]. rewrite Ec, Hw. split; [|reflexivity].
    now rewrite E at 1.
  - now exists [].
Qed.

Lemma trim_end_prefix (s : list N) :
  exists w, s = trim_end s ++ w /\ forallb is_white_space w = true.
Proof.
  unfold trim_end. destruct (trim_start_suffix (rev s)) as (w & E & Hw).
  exists (rev w). split; [|now rewrite forallb_rev].
  rewrite <- rev_app_distr, <- E. now rewrite rev_involutive.
Qed.

(** [trim] removes white space at the two ends and nothing else. *)
Lemma trim_decompose (s : list N) :
  exists w1 w2,
    s = w1 ++ trim s ++ w2
    /\ forallb is_white_space w1 = true /\ forallb is_white_space w2 = true.
Proof.
  destruct (trim_start_suffix s) as (w1 & E1 & H1).
  destruct (trim_end_prefix (trim_start s)) as (w2 & E2 & H2).
  exists w1, w2. unfold trim. now rewrite <- E2.
Qed.

Lemma trim_length (s : list N) : jslength (trim s) <= jslength s.
Proof.
  destruct (trim_decompose s) as (w1 & w2 & E & _).
  unfold jslength. rewrite E at 2. rewrite !length_app. lia.
Qed.

Lemma head_rev_last (s : list N) : head (rev s) = last s.
Proof.
  destruct s as [|c s _] using rev_ind; [reflexivity|].
  now rewrite rev_unit, last_snoc.
Qed.

Lemma last_rev_head (s : list N) : last (rev s) = head s.
Proof. now rewrite <- head_rev_last, rev_involutive. Qed.

Lemma trim_start_clean (s : list N) (c : N) :
  head (trim_start s) = Some c -> is_white_space c = false.
Proof.
  destruct (trim_start s) as [|a r] eqn:E; [discriminate|].
  intros [= <-]. exact (trim_start_head s a r E).
Qed.

Lemma trim_end_clean (s : list N) (c : N) :
  last (trim_end s) = Some c -> is_white_space c = false.
Proof. unfold trim_end. rewrite last_rev_head. apply trim_start_clean. Qed.

Lemma trim_end_head (s : list N) (c : N) :
  head (trim_end s) = Some c -> head s = Some c.
Proof.
  destruct (trim_end_prefix s) as (w & E & _). rewrite E at 2.
  destruct (trim_end s); [discriminate|]. now intros [= <-].
Qed.

(** What [trim] returns, unless it is empty, has no white space at either
    end. *)
Lemma trim_outer_clean (s : list N) : trim s <> [] -> outer_clean (trim s).
Proof.
  intros Hne. split; [exact Hne|]. split; intros c Hc.
  - apply trim_end_head in Hc. now apply trim_start_clean in Hc.
  - now apply trim_end_clean in Hc.
Qed.

Lemma trim_start_fixed (s : list N) :
  (forall c, head s = Some c -> is_white_space c = false) -> trim_start s = s.
Proof.
  destruct s as [|c s]; [reflexivity|]. intros Hc. cbn [trim_start].
  now rewrite (Hc c eq_refl).
Qed.

(** A string without white space at either end is left as it is. *)
Lemma trim_fixed (s : list N) : outer_clean s -> trim s = s.
Proof.
  intros (_ & Hh & Hl). unfold trim, trim_end.
  rewrite (trim_start_fixed s Hh), trim_start_fixed, rev_involutive;
    [reflexivity|].
  intros c. rewrite head_rev_last. apply Hl.
Qed.

Lemma trim_not_blank (s : list N) :
  blank (Some s) = false -> trim s <> [].
Proof. simpl. intros B T. apply trim_nil_iff in T. congruence. Qed.

(** ** More on creating *)

Section CreateMore.

Context `{Runtime}.
Variable dirname : list N.

(** The three ways through the create handler, after multer. *)
Lemma post_posts_cases e req w :
  let up := upload_single dirname e (req_image req) w in
  (blank (field_name req) || blank (field_message req) = true
   /\ post_posts dirname e req w = (MISSING_FIELDS, snd up))
  \/ exists n m,
       field_name req = Some n /\ field_message req = Some m
       /\ blank (Some n) || blank (Some m) = false
       /\ ((300 < jslength m
            /\ post_posts dirname e req w = (MESSAGE_TOO_LONG, snd up))
           \/ (jslength m <= 300
               /\ post_posts dirname e req w =
                  let w1 := log (DbInsert (trim n) (trim m)
                                   (image_path_of (fst up)) (handler_now e))
                              (snd up) in
                  match db_insert_err e with
                  | Some _ =>
                      (STORE_FAILED, log (ConsoleError "❌ DB 저장 오류:") w1)
                  | None =>
                      let p := Post (next_rowid (db w)) (trim n) (trim m)
                                 (image_path_of (fst up)) (handler_now e) in
                      (Response 201 (JsonPost p),
                       set_db (Database (rows (db w) ++ [p])
                                 (next_rowid (db w))) w1)
                  end)).
Proof.
  intros up. rewrite post_posts_unfold. fold up.
  unfold field_name, field_message.
  destruct (blank (req_body req ≫= form_name)
            || blank (req_body req ≫= form_message)) eqn:B.
  - left. split; [reflexivity|]. now apply create_post_missing.
  - right. destruct (req_body req ≫= form_name) as [n|] eqn:En;
      [|discriminate B].
    destruct (req_body req ≫= form_message) as [m|] eqn:Em;
      [|simpl in B; now rewrite orb_true_r in B].
    exists n, m. do 3 (split; [reflexivity || exact B|]).
    destruct (N.lt_ge_cases 300 (jslength m)) as [L|L].
    + left. split; [exact L|]. now apply (create_post_too_long _ _ _ _ n m).
    + right. split; [exact L|].
      rewrite (create_post_accepted _ _ _ _ n m En Em B L).
      subst up. now rewrite upload_single_db.
Qed.



Lemma upload_single_written e f w :
  written_path dirname e f
    ∈ files (snd (upload_single dirname e (Some f) w)).
Proof.
  cbn [upload_single snd files log set_files]. unfold written_path.
  apply elem_of_union_l, elem_of_singleton. reflexivity.
Qed.

(** X1. A create whose insert fails is answered 500 with the storage error; the
    table is as it was, the error is the last line logged, and a file that
    came with the request stays where multer wrote it. *)
Theorem create_storage_failure e req w n m err :
  field_name req = Some n -> field_message req = Some m ->
  blank (Some n) = false -> blank (Some m) = false ->
  jslength m <= 300 -> db_insert_err e = Some err ->
  let w' := snd (post_posts dirname e req w) in
  fst (post_posts dirname e req w) = STORE_FAILED
  /\ db w' = db w
  /\ last (trace w') = Some (ConsoleError "❌ DB 저장 오류:")
  /\ (forall f, req_image req = Some f -> written_path dirname e f ∈ files w').
Proof.
  intros En Em Bn Bm L Ei w'. subst w'.
  destruct (post_posts_cases e req w)
    as [[B _]|(n' & m' & En' & Em' & B & [[L' _]|[_ E]])].
  - rewrite En, Em, Bn, Bm in B. discriminate B.
  - rewrite Em in Em'. injection Em' as <-. lia.
  - rewrite E, Ei. cbn [fst snd db log trace files].
    rewrite upload_single_db, last_snoc. repeat split.
    intros f Ef. rewrite Ef. apply upload_single_written.
Qed.


(** X3. A 201 is only given to a request whose two fields are present and not
    blank: the post returned holds their trimmed values, neither empty nor
    with white space at an end, its message has at most 300 code units, and
    it is the last row of the table. *)
Theorem created_post_fields e req w p :
  fst (post_posts dirname e req w) = Response 201 (JsonPost p) ->
  (exists n m,
     field_name req = Some n /\ field_message req = Some m
     /\ name p = trim n /\ message p = trim m /\ jslength m <= 300)
  /\ stored_fields_ok p
  /\ last (rows (db (snd (post_posts dirname e req w)))) = Some p.
Proof.
  destruct (post_posts_cases e req w)
    as [[_ E]|(n & m & En & Em & B & [[_ E]|[L E]])]; rewrite E; clear E;
    try discriminate.
  destruct (db_insert_err e); [discriminate|].
  cbn [fst snd db set_db rows]. intros [= <-]. cbn [name message].
  apply orb_false_elim in B as [Bn Bm].
  split; [exists n, m; repeat split; assumption|].
  split; [|apply last_snoc].
  split; [apply trim_outer_clean, trim_not_blank, Bn|].
  split; [apply trim_outer_clean, trim_not_blank, Bm|].
  cbn [message]. pose proof (trim_length m). lia.
Qed.

(** X4. The image of a created post exists when the post is created: with a
    file, the post refers to [/uploads/] followed by the stored file name
    and the file multer wrote is among the files; without a file, the post
    has no image path and the files are as they were. *)
Theorem created_image_exists e req w p :
  fst (post_posts dirname e req w) = Response 201 (JsonPost p) ->
  let w' := snd (post_posts dirname e req w) in
  match req_image req with
  | Some f =>
      image_path p = Some (lit "/uploads/" ++ filename (upload_now e) f)
      /\ written_path dirname e f ∈ files w'
  | None => image_path p = None /\ files w' = files w
  end.
Proof.
  intros E201 w'. subst w'. revert E201.
  destruct (post_posts_cases e req w)
    as [[_ E]|(n & m & En & Em & B & [[_ E]|[L E]])]; rewrite E; clear E;
    try discriminate.
  destruct (db_insert_err e); [discriminate|].
  cbn [fst snd db set_db rows files log]. intros [= <-]. cbn [image_path].
  destruct (req_image req) as [f|]; cbn [upload_single fst snd files log
                                          set_files image_path_of
                                          file_filename].
  - split; [reflexivity|]. unfold written_path.
    apply elem_of_union_l, elem_of_singleton. reflexivity.
  - split; reflexivity.
Qed.

End CreateMore.

(** ** More on the table *)

Lemma select_some_inv (d : database) (k : option N) (img : option (list N)) :
  sql_select_image_path d k = Some img ->
  exists q, q ∈ rows d /\ k = Some (id q) /\ image_path q = img.
Proof.
  unfold sql_select_image_path.
  destruct (List.filter (has_rowid k) (rows d)) as [|q l] eqn:E;
    [discriminate|].
  intros [= <-]. exists q.
  assert (Hq : In q (List.filter (has_rowid k) (rows d)))
    by (rewrite E; now left).
  apply filter_In in Hq as [Hq Hk]. apply has_rowid_true in Hk.
  split; [now apply list_elem_of_In|]. now split.
Qed.

Lemma select_other_after_delete (d : database) (k k' : option N) :
  k' <> k ->
  sql_select_image_path (sql_delete d k) k' = sql_select_image_path d k'.
Proof.
  intros Hne. unfold sql_select_image_path, sql_delete. cbn [rows].
  induction (rows d) as [|q l IH]; [reflexivity|]. cbn [List.filter].
  destruct (has_rowid k q) eqn:Ek; cbn [negb].
  - apply has_rowid_true in Ek.
    assert (Ek' : has_rowid k' q = false)
      by (apply has_rowid_false; congruence).
    now rewrite Ek'.
  - cbn [List.filter]. destruct (has_rowid k' q); [reflexivity|exact IH].
Qed.

Lemma place_desc_drop (f : post -> bool) (p : post) (l : list post) :
  f p = false -> List.filter f (place_desc p l) = List.filter f l.
Proof.
  intros Hp. destruct (place_desc_split p l) as (l1 & l2 & -> & ->).
  rewrite !List.filter_app. cbn [List.filter]. now rewrite Hp.
Qed.

Lemma place_desc_newest (p : post) (l : list post) :
  Forall (fun q => created_at q < created_at p) l -> place_desc p l = p :: l.
Proof.
  intros Hl. destruct Hl as [|q l Hq _]; [reflexivity|].
  cbn [place_desc]. apply N.leb_gt in Hq. now rewrite Hq.
Qed.

Lemma place_desc_keep (f : post -> bool) (p : post) (l : list post) :
  f p = true -> newest_first l ->
  List.filter f (place_desc p l) = place_desc p (List.filter f l).
Proof.
  intros Hp Hs. unfold newest_first in Hs.
  induction Hs as [|q l Hs IH Hq]; [cbn; now rewrite Hp|].
  cbn [place_desc]. destruct (created_at p <=? created_at q) eqn:E.
  - cbn [List.filter]. destruct (f q); [|exact IH].
    cbn [place_desc]. now rewrite E, IH.
  - cbn [List.filter]. rewrite Hp. apply N.leb_gt in E.
    destruct (f q).
    + cbn [place_desc]. apply N.leb_gt in E. now rewrite E.
    + symmetry. apply place_desc_newest. apply Forall_forall.
      intros x Hx. apply list_elem_of_In, filter_In in Hx as [Hx _].
      rewrite List.Forall_forall in Hq. specialize (Hq x Hx). simpl in Hq.
      lia.
Qed.

(** Ordering commutes with leaving rows out. *)
Lemma order_by_filter (f : post -> bool) (l : list post) :
  order_by_created_at_desc (List.filter f l)
  = List.filter f (order_by_created_at_desc l).
Proof.
  induction l as [|p l IH] using rev_ind; [reflexivity|].
  rewrite List.filter_app, order_by_snoc. cbn [List.filter].
  destruct (f p) eqn:Hp.
  - rewrite order_by_snoc, IH. symmetry.
    apply place_desc_keep; [exact Hp|apply order_by_sorted].
  - rewrite app_nil_r, IH. symmetry. now apply place_desc_drop.
Qed.

Lemma filter_other_rows (k : option N) (l : list post) :
  (forall q, q ∈ l -> k <> Some (id q)) -> List.filter (other_row k) l = l.
Proof.
  induction l as [|q l IH]; [reflexivity|]. intros Hl. cbn [List.filter].
  unfold other_row at 1.
  rewrite (proj2 (has_rowid_false k q)) by (apply Hl; now left).
  cbn [negb]. f_equal. apply IH. intros x Hx. apply Hl. now right.
Qed.

(** ** More on listing and deleting *)

Section DeleteMore.

Context `{Runtime}.
Variable dirname : list N.

(** X5. The listing changes nothing. When [db.all] fails the answer is 500 with
    the listing error and the error is logged; otherwise it is 200 with the
    rows. In both cases the table and the files are as they were. *)
Theorem get_posts_read_only e w :
  db (snd (get_posts e w)) = db w
  /\ files (snd (get_posts e w)) = files w
  /\ match db_all_err e with
     | Some _ =>
         fst (get_posts e w) = LIST_FAILED
         /\ trace (snd (get_posts e w))
            = trace w ++ [DbAll; ConsoleError "❌ DB 조회 오류:"]
     | None =>
         fst (get_posts e w)
         = Response 200 (JsonRows (order_by_created_at_desc (rows (db w))))
         /\ trace (snd (get_posts e w)) = trace w ++ [DbAll]
     end.
Proof.
  unfold get_posts. destruct (db_all_err e);
    cbn [fst snd db files trace log]; rewrite <- ?app_assoc; repeat split.
Qed.

(** X6. A delete whose lookup fails is answered 500 with the lookup error; the
    table and the files are as they were and nothing is tried after the
    lookup. *)
Theorem delete_lookup_failure e param w err :
  db_get_err e = Some err ->
  let w' := snd (delete_post dirname e param w) in
  fst (delete_post dirname e param w) = LOOKUP_FAILED
  /\ db w' = db w /\ files w' = files w
  /\ trace w' = trace w ++ [DbGet (rowid_of_text param);
                            ConsoleError "❌ DB 조회 오류(삭제):"].
Proof.
  intros Eg w'. subst w'. unfold delete_post. rewrite Eg.
  cbn [fst snd db files trace log]. rewrite <- app_assoc. repeat split.
Qed.

(** X7. A delete answered 200 removes the rows with the given rowid and no
    other: a row is in the table afterwards exactly when it was there and has
    another rowid, the rows left keep their order, and looking up any other
    rowid gives what it gave before. *)
Theorem delete_removes_only_target e param w :
  status (fst (delete_post dirname e param w)) = 200 ->
  let k := rowid_of_text param in
  let w' := snd (delete_post dirname e param w) in
  rows (db w') = List.filter (other_row k) (rows (db w))
  /\ (forall q, q ∈ rows (db w') <-> q ∈ rows (db w) /\ k <> Some (id q))
  /\ (forall k', k' <> k ->
        sql_select_image_path (db w') k' = sql_select_image_path (db w) k')
  /\ sequence (db w') = sequence (db w).
Proof.
  intros S k w'. apply delete_post_200 in S as (_ & _ & Ed).
  subst w'. rewrite Ed. fold k. split; [reflexivity|].
  split; [intros q; apply deleted_rows|].
  split; [|reflexivity]. intros k' Hne. now apply select_other_after_delete.
Qed.

(** X8. After a delete answered 200 the listing is the listing before without
    the rows that had the given rowid, in the same order. *)
Theorem delete_listing e param w e' :
  status (fst (delete_post dirname e param w)) = 200 ->
  db_all_err e' = None ->
  let k := rowid_of_text param in
  let w' := snd (delete_post dirname e param w) in
  exists l,
    fst (get_posts e' w) = Response 200 (JsonRows l)
    /\ fst (get_posts e' w')
       = Response 200 (JsonRows (List.filter (other_row k) l)).
Proof.
  intros S Ea k w'. apply delete_post_200 in S as (_ & _ & Ed).
  exists (order_by_created_at_desc (rows (db w))).
  unfold get_posts. rewrite Ea. cbn [fst snd db log]. unfold sql_select_all.
  split; [reflexivity|]. subst w'. rewrite Ed. cbn [sql_delete rows].
  fold k. fold (other_row k). now rewrite order_by_filter.
Qed.

(** X9. Deleting a post that has no image never touches the files: the answer is
    200, the files are as they were, and the trace holds the lookup and the
    deletion only. *)
Theorem delete_without_image e param w p :
  p ∈ rows (db w) -> rowid_of_text param = Some (id p) ->
  (forall q, q ∈ rows (db w) -> rowid_of_text param = Some (id q) ->
     image_path q = None \/ image_path q = Some []) ->
  db_get_err e = None -> db_delete_err e = None ->
  let k := rowid_of_text param in
  let w' := snd (delete_post dirname e param w) in
  fst (delete_post dirname e param w) = Response 200 JsonSuccess
  /\ files w' = files w
  /\ trace w' = trace w ++ [DbGet k; DbDelete k].
Proof.
  intros Hp Hk Himg Eg Ed k w'. subst k w'.
  destruct (select_some (db w) _ p Hp Hk) as [img Es].
  destruct (select_some_inv _ _ _ Es) as (q & Hq & Hkq & Eimg).
  unfold delete_post. rewrite Eg. cbn [db log]. rewrite Es, Ed.
  cbn [fst snd]. split; [reflexivity|].
  destruct (Himg q Hq Hkq) as [E|E]; rewrite E in Eimg; subst img;
    cbn [remove_image truthy files trace set_db log];
    rewrite <- app_assoc; split; reflexivity.
Qed.

(** X10. The only file a delete can make disappear is the one named by the image
    path of a row with the given rowid, in a run answered 200 whose unlink
    reported no error; every other file stays. *)
Theorem delete_only_unlinks_row_image e param w x :
  let w' := snd (delete_post dirname e param w) in
  x ∈ files w -> x ∉ files w' ->
  fst (delete_post dirname e param w) = Response 200 JsonSuccess
  /\ unlink_err e = None
  /\ exists q s,
       q ∈ rows (db w) /\ rowid_of_text param = Some (id q)
       /\ image_path q = Some s
       /\ x = Path.join [dirname; lit "public"; strip_leading_slashes s].
Proof.
  intros w' Hx Hnx. subst w'. revert Hnx.
  destruct (delete_post_cases dirname e param w)
    as [[_ E]|[(_ & _ & E)|[(i & _ & _ & _ & E)|(i & _ & Ei & _ & E)]]];
    rewrite E; cbn [fst snd files log]; try contradiction.
  intros Hnx. split; [reflexivity|].
  destruct (select_some_inv _ _ _ Ei) as (q & Hq & Hkq & Eimg).
  unfold remove_image in Hnx. destruct i as [s|]; [|contradiction].
  destruct (truthy s); [|contradiction].
  unfold fs_unlink in Hnx. destruct (unlink_err e) as [err|].
  - destruct (negb _); cbn [files log set_files set_db] in Hnx; contradiction.
  - split; [reflexivity|]. exists q, s. do 3 (split; [assumption|]).
    destruct (bool_decide _);
      cbn [files log set_files set_db String.eqb code ENOENT negb] in Hnx;
      [|contradiction].
    apply not_elem_of_difference in Hnx as [Hnx|Hnx]; [contradiction|].
    now apply elem_of_singleton in Hnx.
Qed.

(** A delete adds no file. *)
Lemma delete_post_files_subset e param w :
  files (snd (delete_post dirname e param w)) ⊆ files w.
Proof.
  intros x Hx. destruct (decide (x ∈ files w)) as [|Hn]; [assumption|].
  exfalso. revert Hx.
  destruct (delete_post_cases dirname e param w)
    as [[_ E]|[(_ & _ & E)|[(i & _ & _ & _ & E)|(i & _ & Ei & _ & E)]]];
    rewrite E; cbn [fst snd files log]; try contradiction.
  unfold remove_image. destruct i as [s|]; [|contradiction].
  destruct (truthy s); [|contradiction].
  unfold fs_unlink. destruct (unlink_err e) as [err|].
  - destruct (negb _); cbn [files log set_files set_db]; contradiction.
  - destruct (bool_decide _);
      cbn [files log set_files set_db String.eqb code ENOENT negb];
      [|contradiction].
    intros Hx. apply elem_of_difference in Hx as [Hx _]. contradiction.
Qed.

End DeleteMore.

(** ** Stored file names and the upload directory *)

Lemma uint_units_inj (a b : Decimal.uint) :
  uint_units a = uint_units b -> a = b.
Proof.
  revert b. induction a; destruct b; cbn [uint_units]; intros E;
    try discriminate E; try reflexivity;
    injection E as E; f_equal; now apply IHa.
Qed.

Lemma digits_inj (a b : N) : digits a = digits b -> a = b.
Proof.
  unfold digits. intros E. apply uint_units_inj in E.
  now apply DecimalN.Unsigned.to_uint_inj.
Qed.

Lemma app_separator_inj (a : N) (l1 l2 r1 r2 : list N) :
  a ∉ l1 -> a ∉ l2 -> l1 ++ a :: r1 = l2 ++ a :: r2 -> l1 = l2 /\ r1 = r2.
Proof.
  revert l2. induction l1 as [|c l1 IH]; intros l2 H1 H2 E.
  - destruct l2 as [|d l2]; [now injection E as <-|].
    injection E as <- _. destruct H2. now left.
  - destruct l2 as [|d l2].
    + injection E as -> _. destruct H1. now left.
    + injection E as <- E. apply not_elem_of_cons in H1 as [_ H1].
      apply not_elem_of_cons in H2 as [_ H2].
      destruct (IH l2 H1 H2 E) as [-> ->]. now split.
Qed.

Lemma underscore_not_digit (n : N) : CHAR_UNDERSCORE ∉ digits n.
Proof.
  intros Hin. pose proof (digits_are_digits n) as Hd.
  rewrite Forall_forall in Hd. specialize (Hd _ Hin).
  unfold is_digit, CHAR_UNDERSCORE in Hd. lia.
Qed.

(** X11. Uploads stored at different readings of the clock never get the same
    file name, whatever their original names. *)
Theorem filename_distinct_by_time `{Runtime} (now1 now2 : N)
    (file1 file2 : file_part) :
  now1 <> now2 -> filename now1 file1 <> filename now2 file2.
Proof.
  intros Hne E. unfold filename in E. cbn [app] in E.
  apply app_separator_inj in E as [E _];
    [|apply underscore_not_digit|apply underscore_not_digit].
  now apply digits_inj in E.
Qed.

Lemma written_path_child `{Runtime} (segs : list (list N)) e f :
  Forall plain segs -> plain (filename (upload_now e) f) ->
  written_path (abs_path segs) e f
  = uploadDir (abs_path segs) ++ CHAR_FORWARD_SLASH :: filename (upload_now e) f.
Proof.
  intros Hs Hf. unfold written_path.
  rewrite written_path_is_removed_path by assumption.
  now apply join_image_path.
Qed.

(** X12. With [__dirname] a normalized absolute path and extensions free of [/],
    the file of an upload is written directly in the upload directory under
    its stored name, which is an ordinary file name whatever the original
    name was. *)
Theorem upload_written_inside `{Runtime} (segs : list (list N)) e f w :
  Forall plain segs ->
  (forall s, CHAR_FORWARD_SLASH ∉ extname s) ->
  let dirname := abs_path segs in
  let fname := filename (upload_now e) f in
  let w' := snd (upload_single dirname e (Some f) w) in
  plain fname
  /\ files w' = {[uploadDir dirname ++ CHAR_FORWARD_SLASH :: fname]} ∪ files w
  /\ inside_dir (uploadDir dirname)
       (uploadDir dirname ++ CHAR_FORWARD_SLASH :: fname) = true.
Proof.
  intros Hs Hext dirname fname w'.
  assert (Hf : plain fname) by apply filename_plain, Hext.
  split; [exact Hf|]. split; [|apply inside_dir_child, Hf].
  subst w'. cbn [upload_single snd files log set_files].
  fold fname. subst dirname.
  change (Path.join [uploadDir (abs_path segs); fname])
    with (written_path (abs_path segs) e f).
  now rewrite written_path_child.
Qed.

(** ** Requests one after the other *)

Lemma StronglySorted_snoc {A : Type} (R : A -> A -> Prop) (l : list A) (x : A) :
  StronglySorted R l -> Forall (fun y => R y x) l ->
  StronglySorted R (l ++ [x]).
Proof.
  induction 1 as [|a l Hs IH Ha]; intros Hx; cbn [app].
  - repeat constructor.
  - apply Forall_cons in Hx as [Hax Hx]. constructor; [now apply IH|].
    apply Forall_app. split; [exact Ha|]. now repeat constructor.
Qed.

Lemma StronglySorted_list_filter {A : Type} (R : A -> A -> Prop)
    (f : A -> bool) (l : list A) :
  StronglySorted R l -> StronglySorted R (List.filter f l).
Proof.
  induction 1 as [|a l Hs IH Ha]; cbn [List.filter]; [constructor|].
  destruct (f a); [|exact IH]. constructor; [exact IH|].
  apply List.Forall_forall. intros x Hx. apply filter_In in Hx as [Hx _].
  rewrite List.Forall_forall in Ha. now apply Ha.
Qed.

Lemma Forall_list_filter {A : Type} (P : A -> Prop) (f : A -> bool)
    (l : list A) :
  Forall P l -> Forall P (List.filter f l).
Proof.
  intros Hl. apply List.Forall_forall. intros x Hx.
  apply filter_In in Hx as [Hx _]. rewrite List.Forall_forall in Hl.
  now apply Hl.
Qed.

Section Serving.

Context `{Runtime}.
Variable dirname : list N.

(** What a create does to the table: nothing, or one row added at the end
    with the next rowid, the trimmed fields and the image path of the
    upload. *)
Lemma post_posts_db e req w :
  let w' := snd (post_posts dirname e req w) in
  (db w' = db w /\ status (fst (post_posts dirname e req w)) <> 201)
  \/ exists n m,
       field_name req = Some n /\ field_message req = Some m
       /\ blank (Some n) = false /\ blank (Some m) = false
       /\ jslength m <= 300
       /\ let p := Post (next_rowid (db w)) (trim n) (trim m)
                     (match req_image req with
                      | Some f =>
                          Some (lit "/uploads/" ++ filename (upload_now e) f)
                      | None => None
                      end) (handler_now e) in
          fst (post_posts dirname e req w) = Response 201 (JsonPost p)
          /\ db w' = Database (rows (db w) ++ [p]) (next_rowid (db w)).
Proof.
  intros w'. subst w'.
  pose proof (upload_single_db dirname e (req_image req) w) as Hd.
  destruct (post_posts_cases dirname e req w)
    as [[_ E]|(n & m & En & Em & B & [[_ E]|[L E]])]; rewrite E; clear E.
  - left. cbn [fst snd status MISSING_FIELDS]. split; [exact Hd|lia].
  - left. cbn [fst snd status MESSAGE_TOO_LONG]. split; [exact Hd|lia].
  - destruct (db_insert_err e).
    + left. cbn [fst snd status STORE_FAILED db log]. split; [exact Hd|lia].
    + right. exists n, m. apply orb_false_elim in B as [Bn Bm].
      do 5 (split; [assumption|]). cbn [fst snd db set_db].
      destruct (req_image req); split; reflexivity.
Qed.

Lemma post_posts_files e req w :
  files (snd (post_posts dirname e req w))
  = match req_image req with
    | Some f => {[written_path dirname e f]} ∪ files w
    | None => files w
    end.
Proof.
  destruct (post_posts_cases dirname e req w)
    as [[_ E]|(n & m & En & Em & B & [[_ E]|[L E]])]; rewrite E; clear E;
    try destruct (db_insert_err e);
    cbn [snd files log set_db]; destruct (req_image req); reflexivity.
Qed.

(** What a delete does to the table: nothing, or the rows with the rowid
    are left out. *)
Lemma delete_post_db e param w :
  let w' := snd (delete_post dirname e param w) in
  db w' = db w \/ db w' = sql_delete (db w) (rowid_of_text param).
Proof.
  intros w'. subst w'.
  destruct (delete_post_cases dirname e param w)
    as [[_ E]|[(_ & _ & E)|[(i & _ & _ & _ & E)|(i & _ & Ei & _ & E)]]];
    rewrite E; cbn [snd db log]; try (now left).
  right. now rewrite remove_image_db.
Qed.

Lemma get_posts_db e w : db (snd (get_posts e w)) = db w.
Proof. unfold get_posts. now destruct (db_all_err e). Qed.

Lemma handle_sequence e r w :
  sequence (db w) <= sequence (db (snd (handle dirname e r w))).
Proof.
  destruct r as [|req|param]; cbn [handle].
  - now rewrite get_posts_db.
  - destruct (post_posts_db e req w) as [[-> _]|(n & m & _ & _ & _ & _ & _ & _ & ->)];
      [reflexivity|]. cbn [sequence]. unfold next_rowid. lia.
  - destruct (delete_post_db e param w) as [->| ->]; reflexivity.
Qed.

Lemma serve_cons e r rs w :
  snd (serve dirname ((e, r) :: rs) w)
  = snd (serve dirname rs (snd (handle dirname e r w))).
Proof.
  cbn [serve]. destruct (handle dirname e r w) as [a w1].
  cbn [snd]. now destruct (serve dirname rs w1).
Qed.

(** An invariant of the handlers is an invariant of every run. *)
Lemma serve_invariant (I : world -> Prop) :
  (forall e r w, I w -> I (snd (handle dirname e r w))) ->
  forall rs w, I w -> I (snd (serve dirname rs w)).
Proof.
  intros Hstep rs. induction rs as [|[e r] rs IH]; intros w Hw; [exact Hw|].
  rewrite serve_cons. now apply IH, Hstep.
Qed.

Lemma serve_sequence rs w :
  sequence (db w) <= sequence (db (snd (serve dirname rs w))).
Proof.
  revert w. induction rs as [|[e r] rs IH]; intros w; [reflexivity|].
  rewrite serve_cons. etransitivity; [apply handle_sequence|apply IH].
Qed.

(** X13. Rowids are never given twice: a post created after another one, with
    any requests served in between (deletes included), has a larger
    rowid. *)
Theorem rowids_never_reused e1 req1 w p rs e2 req2 q :
  fst (post_posts dirname e1 req1 w) = Response 201 (JsonPost p) ->
  let w1 := snd (post_posts dirname e1 req1 w) in
  let w2 := snd (serve dirname rs w1) in
  fst (post_posts dirname e2 req2 w2) = Response 201 (JsonPost q) ->
  id p < id q.
Proof.
  intros E1 w1 w2 E2.
  assert (S1 : sequence (db w1) = id p).
  { subst w1. destruct (post_posts_db e1 req1 w)
      as [[_ N201]|(n & m & _ & _ & _ & _ & _ & Ep & ->)].
    - rewrite E1 in N201. now destruct N201.
    - rewrite E1 in Ep. now injection Ep as ->. }
  assert (S2 : id q = next_rowid (db w2)).
  { destruct (post_posts_db e2 req2 w2)
      as [[_ N201]|(n & m & _ & _ & _ & _ & _ & Eq & _)].
    - rewrite E2 in N201. now destruct N201.
    - rewrite E2 in Eq. now injection Eq as ->. }
  pose proof (serve_sequence rs w1) as Hle. fold w2 in Hle.
  rewrite S2. unfold next_rowid. lia.
Qed.

Lemma handle_rowids_increasing e r w :
  rowids_increasing (rows (db w)) ->
  rowids_increasing (rows (db (snd (handle dirname e r w)))).
Proof.
  intros Hs. destruct r as [|req|param]; cbn [handle].
  - now rewrite get_posts_db.
  - destruct (post_posts_db e req w)
      as [[-> _]|(n & m & _ & _ & _ & _ & _ & _ & ->)]; [exact Hs|].
    cbn [rows]. apply StronglySorted_snoc; [exact Hs|].
    apply Forall_forall. intros x Hx. cbn [id]. now apply next_rowid_fresh.
  - destruct (delete_post_db e param w) as [->| ->]; [exact Hs|].
    now apply StronglySorted_list_filter.
Qed.

Lemma handle_stored_fields e r w :
  Forall stored_fields_ok (rows (db w)) ->
  Forall stored_fields_ok (rows (db (snd (handle dirname e r w)))).
Proof.
  intros Hs. destruct r as [|req|param]; cbn [handle].
  - now rewrite get_posts_db.
  - destruct (post_posts_db e req w)
      as [[-> _]|(n & m & _ & _ & Bn & Bm & L & _ & ->)]; [exact Hs|].
    cbn [rows]. apply Forall_app. split; [exact Hs|].
    constructor; [|constructor]. unfold stored_fields_ok. cbn [name message].
    split; [apply trim_outer_clean, trim_not_blank, Bn|].
    split; [apply trim_outer_clean, trim_not_blank, Bm|].
    pose proof (trim_length m). lia.
  - destruct (delete_post_db e param w) as [->| ->]; [exact Hs|].
    now apply Forall_list_filter.
Qed.

(** X14. Whatever requests are served, the table stays well formed: rowids grow
    along the table, so each identifies one row, and every row holds a name
    and a message that are not empty and have no white space at an end, the
    message with at most 300 code units. *)
Theorem serve_keeps_table_well_formed rs w :
  rowids_increasing (rows (db w)) ->
  Forall stored_fields_ok (rows (db w)) ->
  let w' := snd (serve dirname rs w) in
  rowids_increasing (rows (db w'))
  /\ Forall stored_fields_ok (rows (db w'))
  /\ NoDup (map id (rows (db w'))).
Proof.
  intros Hs Hf w'.
  assert (Hinv : rowids_increasing (rows (db w'))
                 /\ Forall stored_fields_ok (rows (db w'))).
  { apply (serve_invariant
             (fun w => rowids_increasing (rows (db w))
                       /\ Forall stored_fields_ok (rows (db w))));
      [|now split].
    intros e r w0 [A B].
    split; [now apply handle_rowids_increasing|now apply handle_stored_fields]. }
  destruct Hinv as [A B]. do 2 (split; [assumption|]).
  clear -A. unfold rowids_increasing in A.
  induction A as [|a l Hs IH Ha]; cbn [map]; constructor; [|exact IH].
  intros Hin. apply list_elem_of_fmap in Hin as (x & Ex & Hx).
  rewrite List.Forall_forall in Ha. apply list_elem_of_In in Hx.
  specialize (Ha x Hx). simpl in Ha. lia.
Qed.

End Serving.

(** ** A post created and then deleted *)

Lemma filter_matching_none (k : option N) (l : list post) :
  (forall q, q ∈ l -> k <> Some (id q)) -> List.filter (has_rowid k) l = [].
Proof.
  induction l as [|q l IH]; [reflexivity|]. intros Hl. cbn [List.filter].
  rewrite (proj2 (has_rowid_false k q)) by (apply Hl; now left).
  apply IH. intros x Hx. apply Hl. now right.
Qed.

Lemma fresh_rowid_absent (d : database) (q : post) :
  q ∈ rows d -> Some (next_rowid d) <> Some (id q).
Proof. intros Hq [= E]. apply next_rowid_fresh in Hq. lia. Qed.

Lemma union_singleton_difference (x : list N) (X : gset (list N)) :
  x ∉ X -> ({[x]} ∪ X) ∖ {[x]} = X.
Proof.
  intros Hx. rewrite difference_union_distr_l_L, difference_diag_L.
  rewrite union_empty_l_L. apply difference_disjoint_L.
  now apply disjoint_singleton_r.
Qed.

(** X15. With [__dirname] a normalized absolute path and extensions free of [/]:
    a post created with answer 201 and then deleted by its rowid, with no
    error from the database or the file system, leaves the rows of the table
    and the files as they were before the create, provided the upload did not
    overwrite a file that was already there. The file removed is the file the
    upload wrote. *)
Theorem create_then_delete_restores `{Runtime} (segs : list (list N))
    e1 req w p e2 param :
  Forall plain segs ->
  (forall s, CHAR_FORWARD_SLASH ∉ extname s) ->
  let dirname := abs_path segs in
  fst (post_posts dirname e1 req w) = Response 201 (JsonPost p) ->
  (forall f, req_image req = Some f -> written_path dirname e1 f ∉ files w) ->
  rowid_of_text param = Some (id p) ->
  db_get_err e2 = None -> db_delete_err e2 = None -> unlink_err e2 = None ->
  let w1 := snd (post_posts dirname e1 req w) in
  let w2 := snd (delete_post dirname e2 param w1) in
  fst (delete_post dirname e2 param w1) = Response 200 JsonSuccess
  /\ rows (db w2) = rows (db w)
  /\ files w2 = files w.
Proof.
  intros Hs Hext dirname E201 Hfresh Hk Eg Ed Eu w1 w2.
  pose proof (post_posts_files dirname e1 req w) as Hfiles. fold w1 in Hfiles.
  destruct (post_posts_db dirname e1 req w)
    as [[_ N201]|(n & m & _ & _ & _ & _ & _ & Ep & Edb)];
    [rewrite E201 in N201; now destruct N201|].
  fold w1 in Edb. rewrite E201 in Ep.
  match type of Ep with
  | _ = Response 201 (JsonPost ?P) => set (stored := P) in *
  end.
  apply (f_equal (fun r => match json r with JsonPost x => x | _ => p end))
    in Ep.
  cbn [json] in Ep.
  assert (Hid : id p = next_rowid (db w)) by now rewrite Ep.
  assert (Hsel : sql_select_image_path (db w1) (rowid_of_text param)
                 = Some (image_path p)).
  { unfold sql_select_image_path. rewrite Edb, Hk, Hid. cbn [rows].
    rewrite List.filter_app, filter_matching_none
      by (intros q Hq; now apply fresh_rowid_absent).
    rewrite <- Ep. cbn [app List.filter has_rowid].
    now rewrite Hid, N.eqb_refl. }
  assert (Hrows : rows (sql_delete (db w1) (rowid_of_text param))
                  = rows (db w)).
  { unfold sql_delete. rewrite Edb, Hk, Hid. cbn [rows].
    fold (other_row (Some (next_rowid (db w)))).
    rewrite List.filter_app, filter_other_rows
      by (intros q Hq; now apply fresh_rowid_absent).
    rewrite <- Ep. cbn [List.filter]. unfold other_row. cbn [has_rowid].
    now rewrite Hid, N.eqb_refl, app_nil_r. }
  subst w2. unfold delete_post. rewrite Eg. cbn [db log]. rewrite Hsel, Ed.
  cbn [fst snd]. split; [reflexivity|].
  rewrite remove_image_db. cbn [db set_db log]. split; [exact Hrows|].
  rewrite Ep. subst stored. cbn [image_path].
  destruct (req_image req) as [f|] eqn:Ef; cbn [remove_image];
    [|exact Hfiles].
  change (truthy (lit "/uploads/" ++ filename (upload_now e1) f)) with true.
  cbv iota. subst dirname.
  rewrite <- written_path_is_removed_path
    by (assumption || apply filename_plain, Hext).
  fold (written_path (abs_path segs) e1 f).
  unfold fs_unlink. rewrite Eu. cbn [files set_db log]. rewrite Hfiles.
  rewrite bool_decide_eq_true_2
    by (apply elem_of_union_l, elem_of_singleton; reflexivity).
  cbn [files log set_files].
  apply union_singleton_difference, Hfresh. reflexivity.
Qed.

(** ** Answers and file-system effects of every route *)

Section Effects.

Context `{Runtime}.
Variable dirname : list N.





End Effects.

(** ** Nothing outside the upload directory *)

Section Confinement.

Context `{Runtime}.
Variable segs : list (list N).
Hypothesis segs_plain : Forall plain segs.
Hypothesis extname_no_slash : forall s, CHAR_FORWARD_SLASH ∉ extname s.






End Confinement.

(** * Concrete runs *)

Lemma holds_by_decide (P : Prop) `{Decision P} : bool_decide P = true -> P.
Proof. apply bool_decide_eq_true. Qed.

Lemma sample_segs_plain : Forall plain sample_segs.
Proof.
  apply (holds_by_decide (Forall plain sample_segs)). vm_compute. reflexivity.
Qed.

Example one_post_world_rows : rows (db one_post_world) = [bob_post].
Proof. reflexivity. Qed.


Lemma create_rejects_untrimmed_length_witness :
  let req := text_request (lit "bob") padded_message in
  field_name req = Some (lit "bob") /\ field_message req = Some padded_message
  /\ blank (Some (lit "bob")) = false /\ blank (Some padded_message) = false
  /\ (status (fst (post_posts sample_dir quiet req new_world)) = 400
      <-> 300 < jslength padded_message).
Proof.
  intros req. do 4 (split; [reflexivity|]).
  exact (proj1 (create_rejects_untrimmed_length sample_dir quiet req new_world
                  (lit "bob") padded_message
                  eq_refl eq_refl eq_refl eq_refl)).
Defined.

(** C1 as stated fails: the message of 300 letters and one trailing space
    passes the missing-fields check and has trimmed length exactly 300, and
    the request is answered 400; so the answer is 400 although the trimmed
    length is not above 300. *)
Lemma trimmed_length_300_rejected :
  let req := text_request (lit "bob") padded_message in
  let r := fst (post_posts sample_dir quiet req new_world) in
  blank (field_name req) = false /\ blank (field_message req) = false
  /\ jslength (trim padded_message) = 300
  /\ r = MESSAGE_TOO_LONG
  /\ ~ (status r = 400 <-> 300 < jslength (trim padded_message)).
Proof.
  intros req r. do 4 (split; [vm_compute; reflexivity|]).
  intros [A _].
  assert (E : status r = 400) by (vm_compute; reflexivity).
  specialize (A E). vm_compute in A. discriminate.
Qed.

Lemma create_returns_stored_post_witness :
  let req := image_request (lit " bob ") (lit "hi  ") in
  field_name req = Some (lit " bob ") /\ field_message req = Some (lit "hi  ")
  /\ blank (Some (lit " bob ")) = false /\ blank (Some (lit "hi  ")) = false
  /\ jslength (lit "hi  ") <= 300
  /\ db_insert_err quiet = None /\ db_all_err quiet = None
  /\ fst (post_posts sample_dir quiet req new_world)
     = Response 201
         (JsonPost
            (Post (next_rowid (db new_world)) (trim (lit " bob "))
               (trim (lit "hi  "))
               (Some (lit "/uploads/" ++ filename (upload_now quiet) evil_png))
               (handler_now quiet))).
Proof.
  intros req.
  assert (L : jslength (lit "hi  ") <= 300) by (vm_compute; discriminate).
  do 4 (split; [reflexivity|]). split; [exact L|].
  do 2 (split; [reflexivity|]).
  exact (proj1 (create_returns_stored_post sample_dir quiet quiet req new_world
                  (lit " bob ") (lit "hi  ")
                  eq_refl eq_refl eq_refl eq_refl L eq_refl eq_refl)).
Defined.

Lemma rejected_upload_is_orphaned_witness :
  let req := image_request (lit "bob") (lit "   ") in
  let w' := snd (post_posts sample_dir quiet req new_world) in
  let written :=
    Path.join [uploadDir sample_dir; filename (upload_now quiet) evil_png] in
  req_image req = Some evil_png
  /\ status (fst (post_posts sample_dir quiet req new_world)) = 400
  /\ written ∈ files w'
  /\ files w' = {[written]} ∪ files new_world
  /\ trace w' = trace new_world ++ [FsWrite written]
  /\ db w' = db new_world.
Proof.
  intros req w' written.
  assert (St : status (fst (post_posts sample_dir quiet req new_world)) = 400)
    by reflexivity.
  split; [reflexivity|]. split; [exact St|].
  destruct (rejected_upload_is_orphaned sample_dir quiet req new_world evil_png
              eq_refl St) as (A & B & C & D & _).
  repeat split; assumption.
Defined.

Example rejected_upload_written_path :
  Path.join [uploadDir sample_dir; filename (upload_now quiet) evil_png]
  = lit "/srv/app/public/uploads/1700000000123_evil.png".
Proof. reflexivity. Qed.

Lemma list_newest_first_witness :
  let s1 := post_posts sample_dir (at_time 10) (text_request (lit "A") (lit "a"))
              new_world in
  let s2 := post_posts sample_dir (at_time 20) (text_request (lit "B") (lit "b"))
              (snd s1) in
  let s3 := post_posts sample_dir (at_time 30) (text_request (lit "C") (lit "c"))
              (snd s2) in
  let a := Post 1 (lit "A") (lit "a") None 10 in
  let b := Post 2 (lit "B") (lit "b") None 20 in
  let c := Post 3 (lit "C") (lit "c") None 30 in
  db_all_err quiet = None
  /\ rows (db new_world) = []
  /\ fst s1 = Response 201 (JsonPost a)
  /\ fst s2 = Response 201 (JsonPost b)
  /\ fst s3 = Response 201 (JsonPost c)
  /\ created_at a < created_at b /\ created_at b < created_at c
  /\ fst (get_posts quiet (snd s3)) = Response 200 (JsonRows [c; b; a])
  /\ exists l,
       fst (get_posts quiet new_world) = Response 200 (JsonRows l)
       /\ Permutation l (rows (db new_world))
       /\ newest_first l
       /\ (rows (db new_world) = [] -> l = [])
       /\ db (snd (get_posts quiet new_world)) = db new_world.
Proof.
  intros s1 s2 s3 a b c.
  assert (Lab : created_at a < created_at b) by (vm_compute; reflexivity).
  assert (Lbc : created_at b < created_at c) by (vm_compute; reflexivity).
  do 5 (split; [reflexivity|]). split; [exact Lab|]. split; [exact Lbc|].
  split.
  - exact (proj2 (list_newest_first sample_dir)
             (at_time 10) (at_time 20) (at_time 30)
             (text_request (lit "A") (lit "a"))
             (text_request (lit "B") (lit "b"))
             (text_request (lit "C") (lit "c"))
             new_world a b c eq_refl eq_refl eq_refl eq_refl Lab Lbc
             quiet eq_refl).
  - exact (proj1 (list_newest_first sample_dir) quiet new_world eq_refl).
Defined.

Lemma delete_unknown_id_not_found_witness :
  let first := delete_post sample_dir quiet (lit "1") one_post_world in
  let second := delete_post sample_dir quiet (lit "1") (snd first) in
  db_get_err quiet = None
  /\ (forall p, p ∈ rows (db new_world) -> rowid_of_text (lit "7") <> Some (id p))
  /\ fst (delete_post sample_dir quiet (lit "7") new_world) = NOT_FOUND
  /\ db (snd (delete_post sample_dir quiet (lit "7") new_world)) = db new_world
  /\ status (fst first) = 200
  /\ status (fst second) <> 200
  /\ db (snd second) = db (snd first)
  /\ fst second = NOT_FOUND.
Proof.
  intros first second.
  assert (Hn : forall p, p ∈ rows (db new_world) ->
                 rowid_of_text (lit "7") <> Some (id p))
    by (intros p Hp; inversion Hp).
  assert (S1 : status (fst first) = 200) by (vm_compute; reflexivity).
  split; [reflexivity|]. split; [exact Hn|].
  destruct (proj1 (delete_unknown_id_not_found sample_dir)
              quiet (lit "7") new_world eq_refl Hn) as (A & B & _).
  destruct (proj2 (delete_unknown_id_not_found sample_dir)
              quiet quiet (lit "1") one_post_world S1) as (C & D & E).
  split; [exact A|]. split; [exact B|]. split; [exact S1|].
  split; [exact C|]. split; [exact D|]. exact (E eq_refl).
Defined.

Lemma delete_answer_ignores_unlink_witness :
  let w' := snd (delete_post sample_dir unlink_denied (lit "1") one_post_world) in
  bob_post ∈ rows (db one_post_world)
  /\ rowid_of_text (lit "1") = Some (id bob_post)
  /\ db_get_err unlink_denied = None /\ db_delete_err unlink_denied = None
  /\ fst (delete_post sample_dir unlink_denied (lit "1") one_post_world)
     = Response 200 JsonSuccess
  /\ (forall q, q ∈ rows (db w') -> id q <> id bob_post).
Proof.
  intros w'.
  assert (Hp : bob_post ∈ rows (db one_post_world)) by (vm_compute; left).
  assert (Hk : rowid_of_text (lit "1") = Some (id bob_post)) by reflexivity.
  split; [exact Hp|]. split; [exact Hk|]. do 2 (split; [reflexivity|]).
  destruct (delete_answer_ignores_unlink sample_dir unlink_denied (lit "1")
              one_post_world bob_post Hp Hk eq_refl eq_refl)
    as (A & B & _).
  split; assumption.
Defined.

Example unlink_denied_is_logged :
  trace (snd (delete_post sample_dir unlink_denied (lit "1") one_post_world))
  = trace one_post_world
    ++ [DbGet (Some 1); DbDelete (Some 1);
        FsUnlink (lit "/srv/app/public/uploads/1700000000123_evil.png");
        ConsoleWarn WARN_UNLINK "EACCES: permission denied"].
Proof. reflexivity. Qed.

Lemma delete_row_before_file_witness :
  let k := rowid_of_text (lit "1") in
  let r := fst (delete_post sample_dir delete_busy (lit "1") one_post_world) in
  let w' := snd (delete_post sample_dir delete_busy (lit "1") one_post_world) in
  bob_post ∈ rows (db one_post_world) /\ k = Some (id bob_post)
  /\ db_get_err delete_busy = None
  /\ db_delete_err delete_busy
     = Some "SQLITE_BUSY: database is locked"%string
  /\ r = DELETE_FAILED /\ db w' = db one_post_world
  /\ files w' = files one_post_world
  /\ trace w' = trace one_post_world
                ++ [DbGet k; DbDelete k; ConsoleError "❌ DB 삭제 오류:"].
Proof.
  intros k r w'.
  assert (Hp : bob_post ∈ rows (db one_post_world)) by (vm_compute; left).
  assert (Hk : k = Some (id bob_post)) by reflexivity.
  split; [exact Hp|]. split; [exact Hk|]. do 2 (split; [reflexivity|]).
  exact (proj1 (delete_row_before_file sample_dir delete_busy (lit "1")
                  one_post_world)
           bob_post _ Hp Hk eq_refl eq_refl).
Defined.

Lemma remove_image_inside_for_plain_name_witness :
  let f := lit "1700000000123_evil.png" in
  let w' := remove_image sample_dir quiet (Some (lit "/uploads/" ++ f))
              one_post_world in
  let target := uploadDir sample_dir ++ CHAR_FORWARD_SLASH :: f in
  Forall plain sample_segs /\ plain f
  /\ inside_dir (uploadDir sample_dir) target = true
  /\ (forall x, x ∈ files one_post_world -> x ∉ files w' -> x = target).
Proof.
  intros f w' target.
  assert (Hs : Forall plain sample_segs) by exact sample_segs_plain.
  assert (Hf : plain f)
    by (apply (holds_by_decide (plain f)); vm_compute; reflexivity).
  split; [exact Hs|]. split; [exact Hf|].
  destruct (remove_image_inside_for_plain_name sample_segs quiet one_post_world
              f Hs Hf) as (A & _ & C).
  split; assumption.
Defined.

(** C2 as stated fails: a row whose image path is
    [/uploads/../../guestbook.db] makes the delete handler unlink
    [/srv/app/guestbook.db], a file outside the upload directory
    [/srv/app/public/uploads]; the path is neither rejected nor neutralized
    and the request is answered 200. *)
Lemma delete_unlinks_outside_upload_dir :
  let victim := lit "/srv/app/guestbook.db" in
  let w' := snd (delete_post sample_dir quiet (lit "1") traversal_world) in
  uploadDir sample_dir = lit "/srv/app/public/uploads"
  /\ inside_dir (uploadDir sample_dir) victim = false
  /\ (victim ∈ files traversal_world)
  /\ (victim ∉ files w')
  /\ trace w' = [DbGet (Some 1); DbDelete (Some 1); FsUnlink victim]
  /\ fst (delete_post sample_dir quiet (lit "1") traversal_world)
     = Response 200 JsonSuccess.
Proof.
  intros victim w'.
  split; [vm_compute; reflexivity|]. split; [vm_compute; reflexivity|].
  split.
  { apply (holds_by_decide (victim ∈ files traversal_world)).
    vm_compute. reflexivity. }
  split.
  - apply (holds_by_decide (victim ∉ files w')). vm_compute. reflexivity.
  - split; vm_compute; reflexivity.
Qed.

(** ** Runs for the further properties *)

Lemma create_storage_failure_witness :
  let req := image_request (lit "bob") (lit "hi") in
  let w' := snd (post_posts sample_dir insert_busy req new_world) in
  field_name req = Some (lit "bob") /\ field_message req = Some (lit "hi")
  /\ blank (Some (lit "bob")) = false /\ blank (Some (lit "hi")) = false
  /\ jslength (lit "hi") <= 300
  /\ db_insert_err insert_busy = Some "SQLITE_BUSY: database is locked"%string
  /\ fst (post_posts sample_dir insert_busy req new_world) = STORE_FAILED
  /\ db w' = db new_world
  /\ last (trace w') = Some (ConsoleError "❌ DB 저장 오류:").
Proof.
  intros req w'.
  assert (L : jslength (lit "hi") <= 300) by (vm_compute; discriminate).
  do 4 (split; [reflexivity|]). split; [exact L|]. split; [reflexivity|].
  destruct (create_storage_failure sample_dir insert_busy req new_world
              (lit "bob") (lit "hi") _ eq_refl eq_refl eq_refl eq_refl L
              eq_refl) as (A & B & C & _).
  repeat split; assumption.
Defined.

Lemma created_post_fields_witness :
  let req := image_request (lit " bob ") (lit "hi  ") in
  fst (post_posts sample_dir quiet req new_world)
  = Response 201 (JsonPost bob_post)
  /\ stored_fields_ok bob_post
  /\ last (rows (db (snd (post_posts sample_dir quiet req new_world))))
     = Some bob_post.
Proof.
  intros req.
  assert (E : fst (post_posts sample_dir quiet req new_world)
              = Response 201 (JsonPost bob_post)) by reflexivity.
  split; [exact E|].
  exact (proj2 (created_post_fields sample_dir quiet req new_world bob_post E)).
Defined.

Lemma created_image_exists_witness :
  let req := image_request (lit " bob ") (lit "hi  ") in
  let w' := snd (post_posts sample_dir quiet req new_world) in
  fst (post_posts sample_dir quiet req new_world)
  = Response 201 (JsonPost bob_post)
  /\ image_path bob_post
     = Some (lit "/uploads/" ++ filename (upload_now quiet) evil_png)
  /\ written_path sample_dir quiet evil_png ∈ files w'.
Proof.
  intros req w'.
  assert (E : fst (post_posts sample_dir quiet req new_world)
              = Response 201 (JsonPost bob_post)) by reflexivity.
  split; [exact E|].
  exact (created_image_exists sample_dir quiet req new_world bob_post E).
Defined.

Lemma delete_lookup_failure_witness :
  let w' := snd (delete_post sample_dir lookup_busy (lit "1") one_post_world) in
  db_get_err lookup_busy = Some "SQLITE_BUSY: database is locked"%string
  /\ fst (delete_post sample_dir lookup_busy (lit "1") one_post_world)
     = LOOKUP_FAILED
  /\ db w' = db one_post_world /\ files w' = files one_post_world.
Proof.
  intros w'. split; [reflexivity|].
  destruct (delete_lookup_failure sample_dir lookup_busy (lit "1")
              one_post_world _ eq_refl) as (A & B & C & _).
  repeat split; assumption.
Defined.

Lemma delete_removes_only_target_witness :
  let w' := snd (delete_post sample_dir quiet (lit "1") one_post_world) in
  status (fst (delete_post sample_dir quiet (lit "1") one_post_world)) = 200
  /\ rows (db w')
     = List.filter (other_row (rowid_of_text (lit "1")))
         (rows (db one_post_world))
  /\ sequence (db w') = sequence (db one_post_world).
Proof.
  intros w'.
  assert (S : status (fst (delete_post sample_dir quiet (lit "1")
                             one_post_world)) = 200)
    by (vm_compute; reflexivity).
  split; [exact S|].
  destruct (delete_removes_only_target sample_dir quiet (lit "1")
              one_post_world S) as (A & _ & _ & D).
  split; assumption.
Defined.

Lemma delete_listing_witness :
  let w' := snd (delete_post sample_dir quiet (lit "1") one_post_world) in
  status (fst (delete_post sample_dir quiet (lit "1") one_post_world)) = 200
  /\ db_all_err quiet = None
  /\ exists l,
       fst (get_posts quiet one_post_world) = Response 200 (JsonRows l)
       /\ fst (get_posts quiet w')
          = Response 200
              (JsonRows (List.filter (other_row (rowid_of_text (lit "1"))) l)).
Proof.
  intros w'.
  assert (S : status (fst (delete_post sample_dir quiet (lit "1")
                             one_post_world)) = 200)
    by (vm_compute; reflexivity).
  split; [exact S|]. split; [reflexivity|].
  exact (delete_listing sample_dir quiet (lit "1") one_post_world quiet S
           eq_refl).
Defined.

Lemma delete_without_image_witness :
  let k := rowid_of_text (lit "1") in
  let w' := snd (delete_post sample_dir quiet (lit "1") text_post_world) in
  text_post ∈ rows (db text_post_world)
  /\ k = Some (id text_post)
  /\ db_get_err quiet = None /\ db_delete_err quiet = None
  /\ fst (delete_post sample_dir quiet (lit "1") text_post_world)
     = Response 200 JsonSuccess
  /\ files w' = files text_post_world
  /\ trace w' = trace text_post_world ++ [DbGet k; DbDelete k].
Proof.
  intros k w'.
  assert (Hp : text_post ∈ rows (db text_post_world)) by (vm_compute; left).
  assert (Hk : k = Some (id text_post)) by reflexivity.
  assert (Hn : forall q, q ∈ rows (db text_post_world) ->
                 rowid_of_text (lit "1") = Some (id q) ->
                 image_path q = None \/ image_path q = Some []).
  { intros q Hq _.
    change (rows (db text_post_world)) with [text_post] in Hq.
    apply list_elem_of_singleton in Hq as ->. now left. }
  split; [exact Hp|]. split; [exact Hk|]. do 2 (split; [reflexivity|]).
  exact (delete_without_image sample_dir quiet (lit "1") text_post_world
           text_post Hp Hk Hn eq_refl eq_refl).
Defined.

Lemma delete_only_unlinks_row_image_witness :
  let w' := snd (delete_post sample_dir quiet (lit "1") one_post_world) in
  (bob_image ∈ files one_post_world) /\ (bob_image ∉ files w')
  /\ fst (delete_post sample_dir quiet (lit "1") one_post_world)
     = Response 200 JsonSuccess
  /\ exists q s,
       q ∈ rows (db one_post_world)
       /\ rowid_of_text (lit "1") = Some (id q)
       /\ image_path q = Some s
       /\ bob_image
          = Path.join [sample_dir; lit "public"; strip_leading_slashes s].
Proof.
  intros w'.
  assert (Hin : bob_image ∈ files one_post_world)
    by (apply (holds_by_decide (bob_image ∈ files one_post_world));
        vm_compute; reflexivity).
  assert (Hout : bob_image ∉ files w')
    by (apply (holds_by_decide (bob_image ∉ files w'));
        vm_compute; reflexivity).
  split; [exact Hin|]. split; [exact Hout|].
  destruct (delete_only_unlinks_row_image sample_dir quiet (lit "1")
              one_post_world bob_image Hin Hout) as (A & _ & C).
  split; assumption.
Defined.

Lemma filename_distinct_by_time_witness :
  1700000000123 <> 1700000000124
  /\ filename 1700000000123 evil_png <> filename 1700000000124 evil_png.
Proof.
  assert (Hne : 1700000000123 <> 1700000000124) by discriminate.
  split; [exact Hne|].
  exact (filename_distinct_by_time 1700000000123 1700000000124 evil_png
           evil_png Hne).
Defined.

Lemma upload_written_inside_witness :
  let fname := filename (upload_now quiet) evil_png in
  Forall plain sample_segs
  /\ (forall s, CHAR_FORWARD_SLASH ∉ extname s)
  /\ plain fname
  /\ inside_dir (uploadDir sample_dir)
       (uploadDir sample_dir ++ CHAR_FORWARD_SLASH :: fname) = true.
Proof.
  intros fname.
  assert (Hs : Forall plain sample_segs) by exact sample_segs_plain.
  assert (He : forall s, CHAR_FORWARD_SLASH ∉ extname s)
    by exact posix_extname_no_slash.
  split; [exact Hs|]. split; [exact He|].
  destruct (upload_written_inside sample_segs quiet evil_png new_world Hs He)
    as (A & _ & C).
  split; assumption.
Defined.

Lemma rowids_never_reused_witness :
  let req1 := text_request (lit "A") (lit "a") in
  let req2 := text_request (lit "B") (lit "b") in
  let w1 := snd (post_posts sample_dir quiet req1 new_world) in
  let w2 := snd (serve sample_dir [(quiet, DeletePost (lit "1"))] w1) in
  let b := Post 2 (lit "B") (lit "b") None 30 in
  fst (post_posts sample_dir quiet req1 new_world)
  = Response 201 (JsonPost text_post)
  /\ fst (post_posts sample_dir (at_time 30) req2 w2)
     = Response 201 (JsonPost b)
  /\ rows (db w2) = []
  /\ id text_post < id b.
Proof.
  intros req1 req2 w1 w2 b.
  assert (E1 : fst (post_posts sample_dir quiet req1 new_world)
               = Response 201 (JsonPost text_post)) by reflexivity.
  assert (E2 : fst (post_posts sample_dir (at_time 30) req2 w2)
               = Response 201 (JsonPost b)) by (vm_compute; reflexivity).
  split; [exact E1|]. split; [exact E2|].
  split; [vm_compute; reflexivity|].
  exact (rowids_never_reused sample_dir quiet req1 new_world text_post
           [(quiet, DeletePost (lit "1"))] (at_time 30) req2 b E1 E2).
Defined.

Lemma serve_keeps_table_well_formed_witness :
  let w' := snd (serve sample_dir sample_run new_world) in
  rowids_increasing (rows (db new_world))
  /\ Forall stored_fields_ok (rows (db new_world))
  /\ rowids_increasing (rows (db w'))
  /\ Forall stored_fields_ok (rows (db w'))
  /\ NoDup (map id (rows (db w'))).
Proof.
  intros w'.
  assert (A : rowids_increasing (rows (db new_world))) by constructor.
  assert (B : Forall stored_fields_ok (rows (db new_world))) by constructor.
  split; [exact A|]. split; [exact B|].
  exact (serve_keeps_table_well_formed sample_dir sample_run new_world A B).
Defined.

Lemma create_then_delete_restores_witness :
  let req := image_request (lit " bob ") (lit "hi  ") in
  let w1 := snd (post_posts sample_dir quiet req new_world) in
  let w2 := snd (delete_post sample_dir quiet (lit "1") w1) in
  Forall plain sample_segs
  /\ (forall s, CHAR_FORWARD_SLASH ∉ extname s)
  /\ fst (post_posts sample_dir quiet req new_world)
     = Response 201 (JsonPost bob_post)
  /\ rowid_of_text (lit "1") = Some (id bob_post)
  /\ fst (delete_post sample_dir quiet (lit "1") w1) = Response 200 JsonSuccess
  /\ rows (db w2) = rows (db new_world)
  /\ files w2 = files new_world.
Proof.
  intros req w1 w2.
  assert (Hs : Forall plain sample_segs) by exact sample_segs_plain.
  assert (He : forall s, CHAR_FORWARD_SLASH ∉ extname s)
    by exact posix_extname_no_slash.
  assert (E : fst (post_posts sample_dir quiet req new_world)
              = Response 201 (JsonPost bob_post)) by reflexivity.
  assert (Hk : rowid_of_text (lit "1") = Some (id bob_post)) by reflexivity.
  assert (Hfresh : forall f, req_image req = Some f ->
                     written_path sample_dir quiet f ∉ files new_world)
    by (intros f _; apply not_elem_of_empty).
  do 2 (split; [assumption|]). split; [exact E|]. split; [exact Hk|].
  exact (create_then_delete_restores sample_segs quiet req new_world bob_post
           quiet (lit "1") Hs He E Hfresh Hk eq_refl eq_refl eq_refl).
Defined.

